(** * Time to Shop: the scoring pipeline

    A shallow embedding of the cleaning, scoring and decile-assignment code
    of the repository:

    - [src/time_to_shop/core/constants.py]
    - [src/time_to_shop/core/data_loader.py]  (class [DataLoader])
    - [src/time_to_shop/models/predictor.py]  (class [PurchasePredictor])
    - [scorer.py]                             (the legacy script)

    Python exceptions are values of [exn] carried by [result]; a pandas
    DataFrame is a finite map from column names to typed columns; the objects that
    the methods update in place live in a store [gmap loc DataFrame].

    Floating-point numbers are modelled by the rational number they denote.
    The code only compares them with each other and with literals, truncates
    them to integers and overwrites them; it never adds or multiplies them,
    so no rounding takes place in the modelled code. *)

From Stdlib Require Import ZArith QArith Ascii Lia.
From stdpp Require Import base option list strings gmap.

Local Open Scope string_scope.
Local Open Scope Z_scope.

(** ** Exceptions *)

Inductive exn :=
| ModelNotLoaded                         (* ValueError("Model not loaded. Call load_model() first.") *)
| MissingFeatures (missing : gset string) (* ValueError(f"Missing required features: {missing_features}") *)
| ValueError (msg : string)              (* raised inside pandas *)
| TypeError (msg : string)
| KeyError (key : string)
| AttributeError (name : string)
| ClassifierError (msg : string)         (* whatever the classifier raises *)
| NoSuchObject.                          (* a reference to no object of the store *)

Inductive result (A : Type) :=
| Ok (a : A)
| Err (e : exn).
Arguments Ok {A} a.
Arguments Err {A} e.

Definition rbind {A B} (r : result A) (k : A -> result B) : result B :=
  match r with
  | Ok a => k a
  | Err e => Err e
  end.

Declare Scope result_scope.
Delimit Scope result_scope with result.
Notation "x <- r ;; k" := (rbind r (fun x => k))
  (at level 100, r at next level, right associativity) : result_scope.

Definition is_ok {A} (r : result A) : Prop := exists a, r = Ok a.
Definition raises {A} (r : result A) : Prop := exists e, r = Err e.

(** ** constants.py *)

Module constants.

Definition FEATURE_COLUMNS : list string :=
  [ "SALES_6M"; "FREQUENCY_6M"; "BUYS_Q_03"; "COUPON_Q_03";
    "PH_MREDEEM90D"; "PH_PFREQ90D"; "PH_CFREQ90D";
    "BBB_INSTORE_RFM_DECILE"; "BBB_ECOM_R_DECILE";
    "BBB_OFFCOUPON_RFM_DECILE"; "NUM_PERIODS"; "NUM_PRODUCT_GROUPS";
    "PRESENCE_OF_CHILD"; "MARITAL_STAT" ].

Definition KEY_COLUMNS : list string := [ "CUSTOMER_ID"; "ADDRESS_ID" ].

Definition INT_COLUMNS : list string :=
  [ "SALES_6M"; "COUPON_EXPENSE_6M"; "BUYS_Q_03"; "COUPON_Q_03";
    "PH_MREDEEM90D"; "PH_PFREQ90D"; "PH_CFREQ90D";
    "BBB_INSTORE_RFM_DECILE"; "BBB_ECOM_R_DECILE";
    "BBB_OFFCOUPON_RFM_DECILE"; "PCT_TXNS_ON_MKD_DISC" ].

Definition FILL_VALUE_DECILE : Z := 11.
Definition FILL_VALUE_RECENCY : Z := 366.
Definition FILL_VALUE_DEFAULT : Z := 0.

(** The literals of the source, as decimal fractions. *)
Definition DECILE_BINS : list Q :=
  [ 0 # 1;
    19662877 # 100000000;
    21054794 # 100000000;
    25123934 # 100000000;
    26712146 # 100000000;
    42682036 # 100000000;
    493293 # 1000000;
    59348687 # 100000000;
    67486295 # 100000000;
    77079006 # 100000000;
    1 # 1 ]%Q.

Definition DECILE_LABELS : list string :=
  [ "10"; "9"; "8"; "7"; "6"; "5"; "4"; "3"; "2"; "1" ].

End constants.

(** ** pandas.cut with a list of bin edges and a list of labels

    [pd.cut(x, bins=..., labels=...)] with the defaults [right=True],
    [include_lowest=False], [duplicates='raise'], as the code calls it. *)

Module pd.

(** [searchsorted(x, side='left')]: the first index whose edge is not below
    [x]; the length of the array when there is none. *)
Fixpoint searchsorted_left (a : list Q) (x : Q) : nat :=
  match a with
  | [] => O
  | b :: a' => if Qlt_le_dec b x then S (searchsorted_left a' x) else O
  end.

(** [(np.diff(bins) < 0).any()] *)
Fixpoint any_decreasing (bins : list Q) : bool :=
  match bins with
  | b :: ((b' :: _) as rest) =>
      (if Qlt_le_dec b' b then true else false) || any_decreasing rest
  | _ => false
  end.

(** a bin edge occurs twice *)
Fixpoint has_duplicates (bins : list Q) : bool :=
  match bins with
  | [] => false
  | b :: rest => existsb (fun b' => Qeq_bool b b') rest || has_duplicates rest
  end.

(** The bin of [x], counted from 0 at the lowest bin; [None] is the NaN mask
    [(ids == len(bins)) | (ids == 0)]. *)
Definition bin_of (bins : list Q) (x : Q) : option nat :=
  let ids := searchsorted_left bins x in
  if (ids =? length bins)%nat || (ids =? 0)%nat then None
  else Some (ids - 1)%nat.

Definition cut (bins : list Q) (labels : list string) (x : Q)
  : result (option string) :=
  if any_decreasing bins then Err (ValueError "bins must increase monotonically.")
  else if has_duplicates bins && negb (length bins =? 2)%nat
  then Err (ValueError "Bin edges must be unique")
  else if negb (length labels =? length bins - 1)%nat
  then Err (ValueError "Bin labels must be one fewer than the number of bin edges")
  else Ok (i ← bin_of bins x; labels !! i).

End pd.

(** ** The decile of a probability

    [predictor.py], lines 98-102, for one row of the output:
    [output['DECILE'] = pd.cut(output['P'], bins=DECILE_BINS, labels=DECILE_LABELS)].
    The result [Ok None] is a missing decile (NaN). *)

Definition decile_label (p : Q) : result (option string) :=
  pd.cut constants.DECILE_BINS constants.DECILE_LABELS p.

(** [int(label)] for a label made of decimal digits. *)
Definition digit_of (c : ascii) : option Z :=
  let n := Z.of_nat (nat_of_ascii c) in
  if (48 <=? n) && (n <=? 57) then Some (n - 48) else None.

Fixpoint int_of_digits (acc : Z) (s : string) : option Z :=
  match s with
  | EmptyString => Some acc
  | String c s' => d ← digit_of c; int_of_digits (10 * acc + d) s'
  end.

Definition int_of_label (s : string) : option Z :=
  match s with
  | EmptyString => None
  | _ => int_of_digits 0 s
  end.

(** [output['DECILE'].astype(int)] of [pipeline.py] and of [scorer.main], for
    one row: a missing decile cannot be converted. *)
Definition decile_int (p : Q) : result Z :=
  (l <- decile_label p ;;
   match l with
   | None => Err (ValueError "Cannot convert float NaN to integer")
   | Some s =>
       match int_of_label s with
       | Some z => Ok z
       | None => Err (ValueError "invalid literal for int()")
       end
   end)%result.

(** ** pandas columns

    A column has one dtype.  An [int64] column cannot hold a missing value;
    a [float64] column holds NaN for it; an [object] column holds Python
    objects, [None] among them.  Integers are unbounded here (no overflow
    of [int64] is modelled); a float, and a decimal number held as an object,
    is the rational number it denotes. *)

Inductive obj :=
| OInt (z : Z)
| OFloat (q : Q)
| OStr (s : string).      (* text; a timestamp is carried as its text *)

Inductive column :=
| IntCol (l : list Z)
| FloatCol (l : list (option Q))
| ObjCol (l : list (option obj)).

Fixpoint mapM {A B} (f : A -> result B) (l : list A) : result (list B) :=
  match l with
  | [] => Ok []
  | a :: l' =>
      match f a with
      | Ok b => match mapM f l' with Ok bs => Ok (b :: bs) | Err e => Err e end
      | Err e => Err e
      end
  end.

Module Series.

Definition len (c : column) : nat :=
  match c with
  | IntCol l => length l
  | FloatCol l => length l
  | ObjCol l => length l
  end.

(** [s.fillna(v)] with an integer [v] *)
Definition fillna (v : Z) (c : column) : column :=
  match c with
  | IntCol l => IntCol l
  | FloatCol l => FloatCol (map (fun o => Some (default (inject_Z v) o)) l)
  | ObjCol l => ObjCol (map (fun o => Some (default (OInt v) o)) l)
  end.

Definition Qltb (a b : Q) : bool := if Qlt_le_dec a b then true else false.

(** [s < 0]: a missing value compares false; text cannot be compared with
    a number. *)
Definition obj_lt0 (o : option obj) : result bool :=
  match o with
  | None => Ok false
  | Some (OInt z) => Ok (z <? 0)
  | Some (OFloat q) => Ok (Qltb q 0)
  | Some (OStr _) => Err (TypeError "'<' not supported between instances of 'str' and 'int'")
  end.

Definition lt0 (c : column) : result (list bool) :=
  match c with
  | IntCol l => Ok (map (fun z => z <? 0) l)
  | FloatCol l => Ok (map (fun o => match o with Some q => Qltb q 0 | None => false end) l)
  | ObjCol l => mapM obj_lt0 l
  end.

(** [mask.sum()] *)
Definition sum (mask : list bool) : nat := length (filter (fun b => b = true) mask).

(** [s.loc[mask] = 0] *)
Definition where_set {A} (zero : A) (mask : list bool) (l : list A) : list A :=
  zip_with (fun (b : bool) x => if b then zero else x) mask l.

Definition loc_set0 (mask : list bool) (c : column) : column :=
  match c with
  | IntCol l => IntCol (where_set 0 mask l)
  | FloatCol l => FloatCol (where_set (Some (inject_Z 0)) mask l)
  | ObjCol l => ObjCol (where_set (Some (OInt 0)) mask l)
  end.

(** [s.astype("object")] *)
Definition astype_object (c : column) : column :=
  match c with
  | IntCol l => ObjCol (map (fun z => Some (OInt z)) l)
  | FloatCol l => ObjCol (map (option_map OFloat) l)
  | ObjCol l => ObjCol l
  end.

(** truncation toward zero, as the conversion of a float to an int does *)
Definition trunc (q : Q) : Z := Z.quot (Qnum q) (Zpos (Qden q)).

(** [int(s)] for a string: decimal digits with an optional sign *)
Definition int_of_str (s : string) : option Z :=
  match s with
  | String "-" s' => option_map Z.opp (int_of_label s')
  | String "+" s' => int_of_label s'
  | _ => int_of_label s
  end.

Definition obj_to_int (o : option obj) : result Z :=
  match o with
  | None => Err (TypeError "int() argument must be a string, a bytes-like object or a real number, not 'NoneType'")
  | Some (OInt z) => Ok z
  | Some (OFloat q) => Ok (trunc q)
  | Some (OStr s) =>
      match int_of_str s with
      | Some z => Ok z
      | None => Err (ValueError "invalid literal for int() with base 10")
      end
  end.

Definition float_to_int (o : option Q) : result Z :=
  match o with
  | None => Err (ValueError "Cannot convert non-finite values (NA or inf) to integer")
  | Some q => Ok (trunc q)
  end.

(** [s.astype('int')] *)
Definition astype_int (c : column) : result column :=
  match c with
  | IntCol l => Ok (IntCol l)
  | FloatCol l => (zs <- mapM float_to_int l ;; Ok (IntCol zs))%result
  | ObjCol l => (zs <- mapM obj_to_int l ;; Ok (IntCol zs))%result
  end.

(** no missing value in the column: [s.isna().any()] is false *)
Definition no_missing (c : column) : Prop :=
  match c with
  | IntCol _ => True
  | FloatCol l => Forall is_Some l
  | ObjCol l => Forall is_Some l
  end.

(** the number in row [i], when the cell holds one *)
Definition obj_num (o : obj) : option Q :=
  match o with
  | OInt z => Some (inject_Z z)
  | OFloat q => Some q
  | OStr _ => None
  end.

(** the cell of row [i], as a Python object; [Some None] is a missing cell,
    [None] is a row that does not exist *)
Definition cell (c : column) (i : nat) : option (option obj) :=
  match c with
  | IntCol l => option_map (fun z => Some (OInt z)) (l !! i)
  | FloatCol l => option_map (option_map OFloat) (l !! i)
  | ObjCol l => l !! i
  end.

End Series.

(** ** DataFrames and statements that update them

    A DataFrame maps column names to columns.  The order of the columns is
    not modelled: the code never reorders, adds or drops a column of a
    table it cleans, and selects features by name.

    A statement that updates a frame in place is a function from the frame
    to an outcome and the frame it leaves behind; after an exception the
    frame keeps what was written before it. *)

Abbreviation DataFrame := (gmap string column).

Definition ST (S A : Type) : Type := S -> result A * S.

Definition ret {S A} (a : A) : ST S A := fun s => (Ok a, s).
Definition raise {S A} (e : exn) : ST S A := fun s => (Err e, s).
Definition bind {S A B} (m : ST S A) (k : A -> ST S B) : ST S B :=
  fun s => match m s with
           | (Ok a, s') => k a s'
           | (Err e, s') => (Err e, s')
           end.
Definition lift {S A} (r : result A) : ST S A := fun s => (r, s).

Declare Scope st_scope.
Delimit Scope st_scope with st.
Notation "x <- m ;; k" := (bind m (fun x => k))
  (at level 100, m at next level, right associativity) : st_scope.
Notation "m ;;; k" := (bind m (fun _ => k))
  (at level 100, right associativity) : st_scope.

Fixpoint for_each {S A} (l : list A) (body : A -> ST S unit) : ST S unit :=
  match l with
  | [] => ret tt
  | a :: l' => (body a ;;; for_each l' body)%st
  end.

Module Frame.

(** [df.columns] *)
Definition columns : ST DataFrame (list string) :=
  fun df => (Ok (elements (dom df)), df).

(** [col in df.columns] *)
Definition has (col : string) : ST DataFrame bool :=
  fun df => (Ok (bool_decide (is_Some (df !! col))), df).

(** [df[col]] *)
Definition getitem (col : string) : ST DataFrame column :=
  fun df => match df !! col with
            | Some c => (Ok c, df)
            | None => (Err (KeyError col), df)
            end.

(** [df.col] *)
Definition getattr (col : string) : ST DataFrame column :=
  fun df => match df !! col with
            | Some c => (Ok c, df)
            | None => (Err (AttributeError col), df)
            end.

(** [df[col] = c] *)
Definition setitem (col : string) (c : column) : ST DataFrame unit :=
  fun df => (Ok tt, <[col := c]> df).

(** [df[col].fillna(v, inplace=True)]: the column is a view of the frame *)
Definition fillna_inplace (col : string) (v : Z) : ST DataFrame unit :=
  (c <- getitem col ;; setitem col (Series.fillna v c))%st.

(** [df.loc[df[col] < 0, col] = 0] *)
Definition clamp_inplace (col : string) : ST DataFrame unit :=
  (c <- getitem col ;;
   mask <- lift (Series.lt0 c) ;;
   setitem col (Series.loc_set0 mask c))%st.

(** [df[cols]] for a list of names *)
Fixpoint getitems (cols : list string) : ST DataFrame (list column) :=
  match cols with
  | [] => ret []
  | col :: cols' =>
      (c <- getitem col ;; cs <- getitems cols' ;; ret (c :: cs))%st
  end.

(** [df[cols] = cs] for a list of names *)
Fixpoint setitems (cols : list string) (cs : list column) : ST DataFrame unit :=
  match cols, cs with
  | col :: cols', c :: cs' => (setitem col c ;;; setitems cols' cs')%st
  | _, _ => ret tt
  end.

End Frame.

(** Python's [sub in s] for strings *)
Fixpoint contains (sub s : string) : bool :=
  match s with
  | EmptyString => String.prefix sub EmptyString
  | String _ s' => String.prefix sub s || contains sub s'
  end.

(** ** data_loader.py: class DataLoader

    Each method body is a statement on the frame its argument refers to. *)

Module DataLoader.
Import constants.

Definition fill_missing_values : ST DataFrame unit :=
  (cols <- Frame.columns ;;
   for_each cols (fun col =>
     if contains "DECILE" col then
       Frame.fillna_inplace col FILL_VALUE_DECILE
     else if contains "_R" col && negb (contains "DECILE" col) then
       Frame.fillna_inplace col FILL_VALUE_RECENCY
     else
       Frame.fillna_inplace col FILL_VALUE_DEFAULT))%st.

(** one of the two [if col in df.columns:] blocks of [_fix_negative_values] *)
Definition fix_negative_column (col : string) : ST DataFrame unit :=
  (present <- Frame.has col ;;
   if present : bool then
     c <- Frame.getitem col ;;
     mask <- lift (Series.lt0 c) ;;
     let negative := Series.sum mask in
     if (0 <? negative)%nat then Frame.clamp_inplace col else ret tt
   else ret tt)%st.

Definition fix_negative_values : ST DataFrame unit :=
  (fix_negative_column "SALES_6M" ;;;
   fix_negative_column "COUPON_EXPENSE_6M")%st.

Definition convert_data_types : ST DataFrame unit :=
  (for_each KEY_COLUMNS (fun col =>
     present <- Frame.has col ;;
     if present : bool then
       c <- Frame.getitem col ;; Frame.setitem col (Series.astype_object c)
     else ret tt) ;;;
   for_each INT_COLUMNS (fun col =>
     present <- Frame.has col ;;
     if present : bool then
       c <- Frame.getitem col ;;
       c' <- lift (Series.astype_int c) ;;
       Frame.setitem col c'
     else ret tt))%st.

(** the three steps that [_preprocess_data] runs on its copy *)
Definition preprocess_steps : ST DataFrame unit :=
  (fill_missing_values ;;; fix_negative_values ;;; convert_data_types)%st.

End DataLoader.

(** ** scorer.py: the cleaning statements of [data_upload] (lines 69-88) *)

Module scorer.

Definition clamp_attr (col : string) : ST DataFrame unit :=
  (c <- Frame.getattr col ;;
   mask <- lift (Series.lt0 c) ;;
   Frame.setitem col (Series.loc_set0 mask c))%st.

Definition key : list string := [ "CUSTOMER_ID"; "ADDRESS_ID" ].

Definition key1 : list string :=
  [ "SALES_6M"; "COUPON_EXPENSE_6M"; "BUYS_Q_03"; "COUPON_Q_03";
    "PH_MREDEEM90D"; "PH_PFREQ90D"; "PH_CFREQ90D";
    "BBB_INSTORE_RFM_DECILE"; "BBB_ECOM_R_DECILE";
    "BBB_OFFCOUPON_RFM_DECILE"; "PCT_TXNS_ON_MKD_DISC" ].

(** lines 69-75: the loop over [data.columns] *)
Definition fill_loop : ST DataFrame unit :=
  (cols <- Frame.columns ;;
   for_each cols (fun col =>
     if contains "DECILE" col then Frame.fillna_inplace col 11
     else if contains "_R" col && negb (contains "DECILE" col) then
       Frame.fillna_inplace col 366
     else Frame.fillna_inplace col 0))%st.

(** lines 76-88 follow the loop *)
Definition data_upload_clean : ST DataFrame unit :=
  (fill_loop ;;;
   clamp_attr "SALES_6M" ;;;
   clamp_attr "COUPON_EXPENSE_6M" ;;;
   (cs <- Frame.getitems key ;;
    Frame.setitems key (map Series.astype_object cs)) ;;;
   (cs <- Frame.getitems key1 ;;
    cs' <- lift (mapM Series.astype_int cs) ;;
    Frame.setitems key1 cs'))%st.

End scorer.

(** The table a cleaning pass returns, when it returns. *)
Definition returned (m : ST DataFrame unit) (df : DataFrame) : result DataFrame :=
  match m df with
  | (Ok _, df') => Ok df'
  | (Err e, _) => Err e
  end.

(** ** The store of DataFrame objects *)

Abbreviation loc := positive.
Abbreviation store := (gmap loc DataFrame).

Module Store.

(** [df.copy()]: a new object with the same content *)
Definition copy (l : loc) : ST store loc :=
  fun h => match h !! l with
           | Some df => let l' := fresh (dom h) in (Ok l', <[l' := df]> h)
           | None => (Err NoSuchObject, h)
           end.

(** run a statement on the frame that [l] refers to *)
Definition at_ {A} (l : loc) (m : ST DataFrame A) : ST store A :=
  fun h => match h !! l with
           | Some df => let '(r, df') := m df in (r, <[l := df']> h)
           | None => (Err NoSuchObject, h)
           end.

End Store.

(** The methods of [DataLoader] on references: each updates the object its
    argument refers to and returns the reference it was given;
    [_preprocess_data] copies first. *)
Module DataLoaderObj.

Definition _fill_missing_values (df : loc) : ST store loc :=
  (Store.at_ df DataLoader.fill_missing_values ;;; ret df)%st.

Definition _fix_negative_values (df : loc) : ST store loc :=
  (Store.at_ df DataLoader.fix_negative_values ;;; ret df)%st.

Definition _convert_data_types (df : loc) : ST store loc :=
  (Store.at_ df DataLoader.convert_data_types ;;; ret df)%st.

Definition _preprocess_data (df : loc) : ST store loc :=
  (df <- Store.copy df ;;
   df <- _fill_missing_values df ;;
   df <- _fix_negative_values df ;;
   df <- _convert_data_types df ;;
   ret df)%st.

End DataLoaderObj.

(** ** predictor.py: class PurchasePredictor

    The classifier is the artifact loaded from disk.  [predict_proba] takes
    the frame of the feature columns and returns, for each row, the
    probability of class 0 and of class 1, or raises. *)

Record Classifier := {
  predict_proba : DataFrame -> string + list (Q * Q)
}.

Record PurchasePredictor := {
  model : option Classifier         (* [None] until [load_model] has run *)
}.

Module pandas.

(** [pd.DataFrame({name: array, ...})]: the arrays must have one length *)
Definition DataFrame_of (cols : list (string * column)) : result DataFrame :=
  match cols with
  | [] => Ok ∅
  | (_, c) :: rest =>
      if forallb (fun nc => (Series.len nc.2 =? Series.len c)%nat) rest
      then Ok (list_to_map cols)
      else Err (ValueError "All arrays must be of the same length")
  end.

End pandas.

Module Predictor.
Import constants.

(** [set(FEATURE_COLUMNS) - set(data.columns)] *)
Definition missing_features (data : DataFrame) : gset string :=
  list_to_set FEATURE_COLUMNS ∖ dom data.

(** [data[FEATURE_COLUMNS]] *)
Definition features (data : DataFrame) : result DataFrame :=
  match Frame.getitems FEATURE_COLUMNS data with
  | (Ok cs, _) => Ok (list_to_map (zip FEATURE_COLUMNS cs))
  | (Err e, _) => Err e
  end.

Definition lookup_col (data : DataFrame) (col : string) : result column :=
  match data !! col with
  | Some c => Ok c
  | None => Err (KeyError col)
  end.

(** The statements after the two checks, from [X = data[FEATURE_COLUMNS]]
    on, given the answer of the classifier on [X]. *)
Definition build_output (data : DataFrame) (proba : string + list (Q * Q))
  : result DataFrame :=
  match proba with
  | inl msg => Err (ClassifierError msg)
  | inr probabilities =>
      let prob_purchase := map snd probabilities in
      (customer_id <- lookup_col data "CUSTOMER_ID" ;;
       previous_purchase <- lookup_col data "PREVIOUS_PURCHASE" ;;
       output <- pandas.DataFrame_of
                   [ ("CUSTOMER_ID", customer_id);
                     ("PREVIOUS_PURCHASE", previous_purchase);
                     ("P", FloatCol (map Some prob_purchase)) ] ;;
       deciles <- mapM decile_label prob_purchase ;;
       Ok (<["DECILE" := ObjCol (map (option_map OStr) deciles)]> output))%result
  end.

(** [predict]: the outcome, and the list of the feature frames that the
    classifier was called with, in the order of the calls. *)
Definition predict (self : PurchasePredictor) (data : DataFrame)
  : result DataFrame * list DataFrame :=
  match model self with
  | None => (Err ModelNotLoaded, [])
  | Some clf =>
      let missing := missing_features data in
      if decide (missing = ∅) then
        match features data with
        | Ok X => (build_output data (predict_proba clf X), [X])
        | Err e => (Err e, [])
        end
      else (Err (MissingFeatures missing), [])
  end.

End Predictor.

(** ** pipeline.py: [PredictionPipeline._prepare_output]

    [pd.to_datetime] and Python's [float] on a string belong to the
    libraries; they are parameters here.  [float_of_str s] is [None] when
    [float(s)] raises, [Some None] when it is NaN.  The index of a frame is
    not modelled, so [reset_index(drop=True)] has no statement. *)

Section formatting.
Variable to_datetime : column -> result column.
Variable float_of_str : string -> option (option Q).

(** [float(o)] for a cell of an object column; numpy reads [None] as NaN *)
Definition obj_to_float (o : option obj) : result (option Q) :=
  match o with
  | None => Ok None
  | Some (OInt z) => Ok (Some (inject_Z z))
  | Some (OFloat q) => Ok (Some q)
  | Some (OStr s) =>
      match float_of_str s with
      | Some x => Ok x
      | None => Err (ValueError "could not convert string to float")
      end
  end.

(** [s.astype(float)] *)
Definition astype_float (c : column) : result column :=
  match c with
  | IntCol l => Ok (FloatCol (map (fun z => Some (inject_Z z)) l))
  | FloatCol l => Ok (FloatCol l)
  | ObjCol l => (xs <- mapM obj_to_float l ;; Ok (FloatCol xs))%result
  end.

(** the four assignments of [_prepare_output], on the copy *)
Definition prepare_output_steps : ST DataFrame unit :=
  ((c <- Frame.getitem "CUSTOMER_ID" ;;
    c' <- lift (Series.astype_int c) ;;
    Frame.setitem "CUSTOMER_ID" c') ;;;
   (c <- Frame.getitem "PREVIOUS_PURCHASE" ;;
    c' <- lift (to_datetime c) ;;
    Frame.setitem "PREVIOUS_PURCHASE" c') ;;;
   (c <- Frame.getitem "DECILE" ;;
    c' <- lift (Series.astype_int c) ;;
    Frame.setitem "DECILE" c') ;;;
   (c <- Frame.getitem "P" ;;
    c' <- lift (astype_float c) ;;
    Frame.setitem "P" c'))%st.

(** [_prepare_output] on references: [predictions.copy()], the four
    assignments on the copy, the copy returned *)
Definition _prepare_output (predictions : loc) : ST store loc :=
  (output <- Store.copy predictions ;;
   Store.at_ output prepare_output_steps ;;;
   ret output)%st.

End formatting.

(** ** Predicates, reference definitions and examples used in the properties *)

(** The fill policy in the words of the specification: a name that contains
    "DECILE" is filled with 11; otherwise a name that contains "_R" is filled
    with 366; otherwise the fill value is 0. *)
Definition fill_value (name : string) : Z :=
  if contains "DECILE" name then 11
  else if contains "_R" name then 366
  else 0.

(** The frame in which every column is filled by that policy. *)
Definition fill_frame (df : DataFrame) : DataFrame :=
  map_imap (fun name c => Some (Series.fillna (fill_value name) c)) df.

(** The frame after the loop has visited the columns [cols]. *)
Definition fill_cols (cols : list string) (df : DataFrame) : DataFrame :=
  foldl (fun d col => alter (Series.fillna (fill_value col)) col d) df cols.

(** the cells that hold a number hold one that is not negative, and no cell
    holds text *)
Definition nonneg_obj (o : option obj) : Prop :=
  match o with
  | None => True
  | Some (OInt z) => 0 <= z
  | Some (OFloat q) => (0 <= q)%Q
  | Some (OStr _) => False
  end.

(** no cell of the column holds a negative number *)
Definition nonneg_cells (c : column) : Prop :=
  match c with
  | IntCol l => Forall (fun z => 0 <= z) l
  | FloatCol l => Forall (fun o => forall q, o = Some q -> (0 <= q)%Q) l
  | ObjCol l => Forall nonneg_obj l
  end.

(** The body shared by the two loops of [_convert_data_types]. *)
Definition convert_body (f : column -> result column) (col : string)
  : ST DataFrame unit :=
  (present <- Frame.has col ;;
   if present : bool then
     c <- Frame.getitem col ;; c' <- lift (f c) ;; Frame.setitem col c'
   else ret tt)%st.

(** [triple P m Q]: when [m] runs on a frame that satisfies [P] and returns,
    the frame it leaves satisfies [Q]. *)
Definition triple {A} (P : DataFrame -> Prop) (m : ST DataFrame A)
  (Q : DataFrame -> Prop) : Prop :=
  forall df a df', P df -> m df = (Ok a, df') -> Q df'.

(** every column satisfies [P], which may depend on the column's name *)
Definition each_col (P : string -> column -> Prop) (df : DataFrame) : Prop :=
  forall name c, df !! name = Some c -> P name c.

(** The two columns that [_fix_negative_values] names. *)
Definition MONETARY_COLUMNS : list string := [ "SALES_6M"; "COUPON_EXPENSE_6M" ].

(** What holds of a column after a cleaning pass: no value is missing; a
    monetary column holds no negative number; a key column has dtype object;
    an integer column has dtype int. *)
Definition clean_column (name : string) (c : column) : Prop :=
  Series.no_missing c /\
  (name ∈ MONETARY_COLUMNS -> nonneg_cells c) /\
  (name ∈ constants.KEY_COLUMNS -> exists l, c = ObjCol l) /\
  (name ∈ constants.INT_COLUMNS -> exists l, c = IntCol l).

(** a frame as a cleaning pass leaves it *)
Definition Clean (df : DataFrame) : Prop := each_col clean_column df.

(** case analysis on the membership of a name in one of the constant lists *)
Ltac names :=
  unfold MONETARY_COLUMNS, constants.KEY_COLUMNS, constants.INT_COLUMNS in *;
  repeat match goal with
         | H : _ ∈ _ :: _ |- _ => apply elem_of_cons in H as [->|H]
         | H : _ ∈ [] |- _ => by apply elem_of_nil in H
         | H : _ ∉ _ :: _ |- _ => apply not_elem_of_cons in H as [? H]
         end.

(** The table that the cleaning stage returns for a table [df]. *)
Definition cleaned (df : DataFrame) : result DataFrame :=
  returned DataLoader.preprocess_steps df.

(** row [i] of the column holds the whole number [v], as an integer or as a
    float *)
Definition holds_int (v : Z) (c : column) (i : nat) : Prop :=
  Series.cell c i = Some (Some (OInt v)) \/
  Series.cell c i = Some (Some (OFloat (inject_Z v))).

(** A batch of five customers, with the sales of the scenario, a decile
    column and a recency column with missing values, and a key column. *)
Definition example_batch : DataFrame :=
  {[ "SALES_6M" :=
       FloatCol [Some (100 # 1); Some (-50 # 1); Some (250 # 1); Some (0 # 1);
                 Some (400 # 1)]%Q;
     "BBB_INSTORE_RFM_DECILE" :=
       FloatCol [Some (5 # 1); None; Some (3 # 1); None; Some (10 # 1)]%Q;
     "DAYS_SINCE_R" := FloatCol [None; Some (7 # 2); None; None; Some (12 # 1)]%Q;
     "CUSTOMER_ID" := IntCol [1001; 1002; 1003; 1004; 1005] ]}.

(** [df[cols] = df[cols].astype(...)]: every column is converted before any
    is written. *)
Definition convert_block (f : column -> result column) (cols : list string)
  : ST DataFrame unit :=
  (cs <- Frame.getitems cols ;;
   cs' <- lift (mapM f cs) ;;
   Frame.setitems cols cs')%st.

(** The columns that the legacy statements name. *)
Definition LEGACY_COLUMNS : list string :=
  MONETARY_COLUMNS ++ constants.KEY_COLUMNS ++ constants.INT_COLUMNS.

(** A batch of two customers with every column that the legacy statements
    name, with missing and negative values among them. *)
Definition example_full : DataFrame :=
  list_to_map
    [ ("CUSTOMER_ID", IntCol [1001; 1002]);
      ("ADDRESS_ID", FloatCol [Some (2001 # 1); None]%Q);
      ("SALES_6M", FloatCol [Some (-50 # 1); Some (2501 # 10)]%Q);
      ("COUPON_EXPENSE_6M", FloatCol [None; Some (-3 # 1)]%Q);
      ("BUYS_Q_03", IntCol [1; 2]);
      ("COUPON_Q_03", IntCol [0; 1]);
      ("PH_MREDEEM90D", FloatCol [None; Some (1 # 1)]%Q);
      ("PH_PFREQ90D", IntCol [1; 3]);
      ("PH_CFREQ90D", IntCol [0; 2]);
      ("BBB_INSTORE_RFM_DECILE", FloatCol [Some (5 # 1); None]%Q);
      ("BBB_ECOM_R_DECILE", FloatCol [None; Some (7 # 1)]%Q);
      ("BBB_OFFCOUPON_RFM_DECILE", ObjCol [Some (OInt 3); None]);
      ("PCT_TXNS_ON_MKD_DISC", FloatCol [Some (1 # 4); Some (3 # 2)]%Q);
      ("FREQUENCY_6M", IntCol [2; 5]) ].


(** A classifier that answers one half for both classes on every row. *)
Definition coin_classifier : Classifier :=
  {| predict_proba X :=
       match X !! "SALES_6M" with
       | Some c => inr (replicate (Series.len c) (1 # 2, 1 # 2)%Q)
       | None => inl "feature SALES_6M is missing"
       end |}.

(** A cleaned batch of two customers. *)
Definition example_cleaned : DataFrame :=
  list_to_map
    [ ("CUSTOMER_ID", ObjCol [Some (OInt 1001); Some (OInt 1002)]);
      ("PREVIOUS_PURCHASE", ObjCol [Some (OStr "2024-01-01"); Some (OStr "2024-01-02")]);
      ("SALES_6M", IntCol [100; 250]);
      ("FREQUENCY_6M", IntCol [2; 5]);
      ("BUYS_Q_03", IntCol [1; 2]);
      ("COUPON_Q_03", IntCol [0; 1]);
      ("PH_MREDEEM90D", IntCol [0; 1]);
      ("PH_PFREQ90D", IntCol [1; 3]);
      ("PH_CFREQ90D", IntCol [0; 2]);
      ("BBB_INSTORE_RFM_DECILE", IntCol [5; 11]);
      ("BBB_ECOM_R_DECILE", IntCol [4; 7]);
      ("BBB_OFFCOUPON_RFM_DECILE", IntCol [3; 6]);
      ("NUM_PERIODS", IntCol [2; 4]);
      ("NUM_PRODUCT_GROUPS", IntCol [3; 5]);
      ("PRESENCE_OF_CHILD", IntCol [1; 2]);
      ("MARITAL_STAT", IntCol [1; 99]) ].

(** [no_missing] can be decided by evaluation *)
#[local] Instance no_missing_dec (c : column) : Decision (Series.no_missing c).
Proof. destruct c; simpl; apply _. Defined.

(** What a cleaning pass does to the column [c] named [name], step by step:
    the fill, the clamp when it is one of the two monetary columns, the
    conversion to object when it is a key column, the conversion to int when
    it is an integer column. *)
Definition clean_col (name : string) (c : column) : result column :=
  let c1 := Series.fillna (fill_value name) c in
  (c2 <- (if bool_decide (name ∈ MONETARY_COLUMNS)
          then (mask <- Series.lt0 c1 ;; Ok (Series.loc_set0 mask c1))
          else Ok c1) ;;
   let c3 := if bool_decide (name ∈ constants.KEY_COLUMNS)
             then Series.astype_object c2 else c2 in
   if bool_decide (name ∈ constants.INT_COLUMNS)
   then Series.astype_int c3 else Ok c3)%result.

(** a column of numbers: dtype int or float *)
Definition numeric (c : column) : Prop :=
  match c with
  | IntCol _ | FloatCol _ => True
  | ObjCol _ => False
  end.

(** [numeric] and the outcome of a computation can be decided by
    evaluation *)
#[local] Instance numeric_dec (c : column) : Decision (numeric c).
Proof. destruct c; simpl; apply _. Defined.

#[local] Instance is_ok_dec {A} (r : result A) : Decision (is_ok r).
Proof.
  destruct r as [a|e]; [left; by exists a|right; by intros [a ?]].
Defined.

(** [df[col] = f(df[col])]: the shape of each assignment of
    [_prepare_output] *)
Definition convert_at (f : column -> result column) (col : string)
  : ST DataFrame unit :=
  (c <- Frame.getitem col ;; c' <- lift (f c) ;; Frame.setitem col c')%st.

(** the label that [pd.cut] gives a probability, as a cell of the DECILE
    column *)
Definition decile_cell (p : Q) : option obj :=
  option_map OStr (i ← pd.bin_of constants.DECILE_BINS p;
                   constants.DECILE_LABELS !! i).

(** A batch without the column CUSTOMER_ID. *)
Definition example_no_id : DataFrame := delete "CUSTOMER_ID" example_cleaned.

(** A table as [predict] returns it when one probability is 0. *)
Definition example_predictions_zero : DataFrame :=
  {[ "CUSTOMER_ID" := ObjCol [Some (OInt 1001); Some (OInt 1002)];
     "PREVIOUS_PURCHASE" := ObjCol [Some (OStr "2024-01-01"); Some (OStr "2024-01-02")];
     "P" := FloatCol [Some (0 # 1); Some (1 # 2)]%Q;
     "DECILE" := ObjCol [None; Some (OStr "4")] ]}.

(** * Properties *)

(** ** Decile assignment *)

Section searchsorted.

Lemma searchsorted_left_le_length (a : list Q) (x : Q) :
  (pd.searchsorted_left a x <= length a)%nat.
Proof.
  induction a as [|b a IH]; simpl; [lia|].
  destruct (Qlt_le_dec b x); lia.
Qed.

(** A larger value is never placed before a smaller one. *)
Lemma searchsorted_left_mono (a : list Q) (x y : Q) :
  (x <= y)%Q -> (pd.searchsorted_left a x <= pd.searchsorted_left a y)%nat.
Proof.
  intros Hxy. induction a as [|b a IH]; simpl; [lia|].
  destruct (Qlt_le_dec b x) as [Hbx|Hbx]; [|lia].
  destruct (Qlt_le_dec b y) as [Hby|Hby]; [lia|].
  exfalso. apply (Qlt_not_le b x Hbx). by apply Qle_trans with y.
Qed.

Lemma searchsorted_left_all_below (a : list Q) (x : Q) :
  Forall (fun b => (b < x)%Q) a -> pd.searchsorted_left a x = length a.
Proof.
  induction 1 as [|b a Hb _ IH]; simpl; [done|].
  destruct (Qlt_le_dec b x) as [|Hle]; [by rewrite IH|].
  exfalso. by apply (Qlt_not_le b x).
Qed.

Lemma bin_of_mono (bins : list Q) (x y : Q) (i j : nat) :
  (x <= y)%Q -> pd.bin_of bins x = Some i -> pd.bin_of bins y = Some j ->
  (i <= j)%nat.
Proof.
  unfold pd.bin_of. intros Hxy Hi Hj.
  pose proof (searchsorted_left_mono bins x y Hxy).
  destruct (_ || _); [done|]. destruct (_ || _); [done|].
  simplify_eq. lia.
Qed.

Lemma bin_of_lt (bins : list Q) (x : Q) (i : nat) :
  pd.bin_of bins x = Some i -> (S i < length bins)%nat.
Proof.
  unfold pd.bin_of. intros Hi.
  pose proof (searchsorted_left_le_length bins x).
  destruct (Nat.eqb_spec (pd.searchsorted_left bins x) (length bins)); [done|].
  destruct (Nat.eqb_spec (pd.searchsorted_left bins x) 0); [done|].
  simpl in Hi. simplify_eq. lia.
Qed.

Lemma bin_of_None (bins : list Q) (x : Q) :
  pd.bin_of bins x = None <->
  pd.searchsorted_left bins x = length bins \/ pd.searchsorted_left bins x = O.
Proof.
  unfold pd.bin_of.
  destruct (Nat.eqb_spec (pd.searchsorted_left bins x) (length bins));
    destruct (Nat.eqb_spec (pd.searchsorted_left bins x) 0); simpl;
    intuition congruence.
Qed.

Lemma searchsorted_left_zero (b : Q) (a : list Q) (x : Q) :
  pd.searchsorted_left (b :: a) x = O -> (x <= b)%Q.
Proof. simpl. by destruct (Qlt_le_dec b x). Qed.

Lemma searchsorted_left_full (a : list Q) (x : Q) :
  pd.searchsorted_left a x = length a -> Forall (fun b => (b < x)%Q) a.
Proof.
  induction a as [|b a IH]; simpl; [by constructor|].
  destruct (Qlt_le_dec b x); [|done].
  intros [= ?]. constructor; auto.
Qed.

End searchsorted.

(** The three checks of [pd.cut] pass on the constants of the module. *)
Lemma decile_label_bin (p : Q) :
  decile_label p =
  Ok (i ← pd.bin_of constants.DECILE_BINS p; constants.DECILE_LABELS !! i).
Proof. reflexivity. Qed.

(** The labels count down from 10: the label of bin [i] reads [10 - i]. *)
Lemma label_of_bin (i : nat) :
  (i < 10)%nat ->
  (constants.DECILE_LABELS !! i) ≫= int_of_label = Some (10 - Z.of_nat i).
Proof.
  intros Hi. do 10 (destruct i as [|i]; [reflexivity|]). lia.
Qed.

Lemma decile_int_bin (p : Q) (d : Z) :
  decile_int p = Ok d <->
  exists i, pd.bin_of constants.DECILE_BINS p = Some i /\ d = 10 - Z.of_nat i.
Proof.
  unfold decile_int. rewrite decile_label_bin. simpl rbind.
  destruct (pd.bin_of constants.DECILE_BINS p) as [i|] eqn:Hb; simpl.
  - pose proof (bin_of_lt _ _ _ Hb) as Hlt.
    change (length constants.DECILE_BINS) with 11%nat in Hlt.
    assert (Hi : (i < 10)%nat) by lia.
    pose proof (label_of_bin i Hi) as Hl.
    destruct (constants.DECILE_LABELS !! i) as [s|]; simpl in Hl; [|done].
    rewrite Hl. split.
    + intros [= <-]. eauto.
    + intros (j & [= <-] & ->). done.
  - split; [done|]. by intros (j & ? & _).
Qed.

(** A decile, when one is assigned, lies in 1..10. *)
Lemma decile_int_range (p : Q) (d : Z) :
  decile_int p = Ok d -> 1 <= d <= 10.
Proof.
  intros (i & Hb & ->)%decile_int_bin.
  apply bin_of_lt in Hb. change (length constants.DECILE_BINS) with 11%nat in Hb.
  lia.
Qed.

(** What the code does with the order: a probability that is not smaller
    gets a decile that is not larger. *)
Lemma decile_int_antitone (p1 p2 : Q) (d1 d2 : Z) :
  (p1 <= p2)%Q -> decile_int p1 = Ok d1 -> decile_int p2 = Ok d2 -> d2 <= d1.
Proof.
  intros Hle (i & Hi & ->)%decile_int_bin (j & Hj & ->)%decile_int_bin.
  pose proof (bin_of_mono _ _ _ _ _ Hle Hi Hj). lia.
Qed.

(** Every probability in (0, 1] gets a decile. *)
Lemma decile_int_total (p : Q) :
  (0 < p)%Q -> (p <= 1)%Q -> is_ok (decile_int p).
Proof.
  intros H0 H1.
  destruct (pd.bin_of constants.DECILE_BINS p) as [i|] eqn:Hb.
  - exists (10 - Z.of_nat i). apply decile_int_bin. eauto.
  - exfalso. apply bin_of_None in Hb as [Hfull|Hzero].
    + apply searchsorted_left_full in Hfull.
      assert (Hin : (1 # 1)%Q ∈ constants.DECILE_BINS).
      { unfold constants.DECILE_BINS. set_solver. }
      rewrite Forall_forall in Hfull. apply Hfull in Hin.
      by apply (Qlt_not_le 1 p).
    + apply searchsorted_left_zero in Hzero. by apply (Qlt_not_le 0 p).
Qed.

(** A probability outside (0, 1] falls in no bin. *)
Lemma bin_of_outside (p : Q) :
  (p <= 0)%Q \/ (1 < p)%Q -> pd.bin_of constants.DECILE_BINS p = None.
Proof.
  intros [Hlow|Hhigh]; apply bin_of_None.
  - right. unfold constants.DECILE_BINS. simpl.
    destruct (Qlt_le_dec (0 # 1) p) as [Hlt|_]; [|done].
    exfalso. by apply (Qlt_not_le 0 p).
  - left. apply searchsorted_left_all_below.
    unfold constants.DECILE_BINS.
    repeat (constructor; [by (apply Qle_lt_trans with 1%Q; [vm_compute; discriminate|])|]).
    constructor.
Qed.

(** C1 (the code departs from it): decile assignment is not monotone
    non-decreasing in the probability.  The bins are listed in ascending
    order and the labels from "10" down to "1", so the lowest bin is
    labelled 10 and the highest 1: the probability 0.1 gets decile 10 and the
    larger probability 0.9 gets decile 1.  The comments and docstrings of the
    code say that 10 is the highest probability. *)
Theorem C1_decile_order_reversed :
  decile_int (1 # 10) = Ok 10 /\
  decile_int (9 # 10) = Ok 1 /\
  ~ (forall p1 p2 d1 d2,
       (0 <= p1)%Q -> (p2 <= 1)%Q -> (p1 < p2)%Q ->
       decile_int p1 = Ok d1 -> decile_int p2 = Ok d2 -> d1 <= d2).
Proof.
  split; [reflexivity|]. split; [reflexivity|].
  intros Hmono.
  assert (H : 10 <= 1); [|lia].
  apply (Hmono (1 # 10) (9 # 10))%Q; try reflexivity; by vm_compute.
Qed.

(** C2, as stated, is false: the five values are not the ones the code
    computes (the first conjunct already fails: the probability 0.0 gets no
    decile). *)
Lemma C2_stated_values_fail :
  ~ (decile_int 0 = Ok 1 /\
     decile_int 1 = Ok 10 /\
     decile_int (19662877 # 100000000) = Ok 9 /\
     decile_int (1 # 2) = Ok 5 /\
     decile_int (77079006 # 100000000) = Ok 10).
Proof. intros (H0 & _). vm_compute in H0. discriminate. Qed.

(** C2, amended: the bins of the five probabilities, counted from 0 at the
    lowest bin.  0.0 falls in no bin (the lowest edge is exclusive); 1.0
    falls in the top bin 9; 0.19662877, an interior edge, falls in the lower
    of its two adjacent bins, bin 0 (edges are inclusive on the right); 0.5
    falls in bin 6; 0.77079006 falls in bin 8, of which it is the inclusive
    right edge, not in the top bin. *)
Theorem C2_bins_of_examples :
  pd.bin_of constants.DECILE_BINS 0 = None /\
  decile_label 0 = Ok None /\
  pd.bin_of constants.DECILE_BINS 1 = Some 9%nat /\
  pd.bin_of constants.DECILE_BINS (19662877 # 100000000) = Some 0%nat /\
  pd.bin_of constants.DECILE_BINS (1 # 2) = Some 6%nat /\
  pd.bin_of constants.DECILE_BINS (77079006 # 100000000) = Some 8%nat.
Proof. repeat split; reflexivity. Qed.

(** C7, as stated, is false: the probability 1.5 lies outside [0,1] and the
    decile assigner raises nothing for it. *)
Lemma C7_no_error_at_3_2 :
  ~ (0 <= 3 # 2 /\ 3 # 2 <= 1)%Q /\
  decile_label (3 # 2) = Ok None /\
  ~ raises (decile_label (3 # 2)).
Proof.
  split; [|split].
  - intros [_ H]. vm_compute in H. by apply H.
  - reflexivity.
  - intros [e He]. vm_compute in He. discriminate.
Qed.

(** C7, amended: for every probability outside [0,1] the decile assigner
    raises no error and assigns no decile: the result is a missing value, not
    the decile of a value clamped into range. *)
Theorem C7_out_of_range_is_missing (p : Q) :
  ~ (0 <= p /\ p <= 1)%Q -> decile_label p = Ok None.
Proof.
  intros Hout. rewrite decile_label_bin, bin_of_outside; [done|].
  destruct (Qlt_le_dec 1 p) as [?|Hle]; [by right|left].
  destruct (Qlt_le_dec p 0) as [?|Hge]; [by apply Qlt_le_weak|].
  exfalso. by apply Hout.
Qed.

Lemma C7_out_of_range_is_missing_witness :
  ~ (0 <= -1 # 2 /\ -1 # 2 <= 1)%Q /\ decile_label (-1 # 2) = Ok None.
Proof.
  assert (H : ~ (0 <= -1 # 2 /\ -1 # 2 <= 1)%Q).
  { intros [H _]. vm_compute in H. by apply H. }
  split; [exact H|]. exact (C7_out_of_range_is_missing (-1 # 2) H).
Defined.

(** ** Cleaning: filling missing values *)

Lemma lookup_fill_frame (df : DataFrame) (name : string) :
  fill_frame df !! name = Series.fillna (fill_value name) <$> df !! name.
Proof.
  unfold fill_frame. rewrite map_lookup_imap. by destruct (df !! name).
Qed.

Section for_each.
Context {S A : Type}.

Lemma for_each_ext (body1 body2 : A -> ST S unit) (l : list A) (s : S) :
  (forall a s', body1 a s' = body2 a s') ->
  for_each l body1 s = for_each l body2 s.
Proof.
  intros Hext. revert s. induction l as [|a l IH]; intros s; [done|].
  simpl. unfold bind. rewrite Hext. destruct (body2 a s) as [[[]|e] s']; auto.
Qed.

End for_each.

(** The body of the loop of [_fill_missing_values], at a column that exists:
    the policy's value is written into the missing cells of that column. *)
Lemma fill_body_run (col : string) (c : column) (df : DataFrame) :
  df !! col = Some c ->
  (if contains "DECILE" col then
     Frame.fillna_inplace col constants.FILL_VALUE_DECILE
   else if contains "_R" col && negb (contains "DECILE" col) then
     Frame.fillna_inplace col constants.FILL_VALUE_RECENCY
   else Frame.fillna_inplace col constants.FILL_VALUE_DEFAULT) df
  = (Ok tt, alter (Series.fillna (fill_value col)) col df).
Proof.
  intros Hc. unfold fill_value.
  assert (Hrun : forall v, Frame.fillna_inplace col v df
                           = (Ok tt, alter (Series.fillna v) col df)).
  { intros v. unfold Frame.fillna_inplace, bind, Frame.getitem, Frame.setitem.
    rewrite Hc. f_equal. apply map_eq. intros k.
    destruct (decide (col = k)) as [<-|Hne].
    - by rewrite lookup_insert_eq, lookup_alter_eq, Hc.
    - by rewrite lookup_insert_ne, lookup_alter_ne. }
  destruct (contains "DECILE" col); [apply Hrun|].
  destruct (contains "_R" col); simpl; apply Hrun.
Qed.

Lemma lookup_fill_cols_notin (cols : list string) (df : DataFrame) (k : string) :
  k ∉ cols -> fill_cols cols df !! k = df !! k.
Proof.
  revert df. induction cols as [|col cols IH]; intros df Hk; [done|].
  apply not_elem_of_cons in Hk as [Hne Hk]. simpl.
  change (fill_cols cols (alter (Series.fillna (fill_value col)) col df) !! k = df !! k).
  rewrite IH by done. by rewrite lookup_alter_ne.
Qed.

Lemma lookup_fill_cols_in (cols : list string) (df : DataFrame) (k : string) :
  NoDup cols -> k ∈ cols ->
  fill_cols cols df !! k = Series.fillna (fill_value k) <$> df !! k.
Proof.
  revert df. induction cols as [|col cols IH]; intros df Hnd Hk.
  - by apply elem_of_nil in Hk.
  - apply NoDup_cons in Hnd as [Hnotin Hnd]. simpl.
    change (fill_cols cols (alter (Series.fillna (fill_value col)) col df) !! k
            = Series.fillna (fill_value k) <$> df !! k).
    apply elem_of_cons in Hk as [->|Hk].
    + rewrite lookup_fill_cols_notin by done. by rewrite lookup_alter_eq.
    + rewrite IH by done.
      assert (col <> k) by (intros ->; done).
      by rewrite lookup_alter_ne.
Qed.

Lemma for_each_fill_run (cols : list string) (df : DataFrame) :
  (forall col, col ∈ cols -> is_Some (df !! col)) ->
  for_each cols (fun col =>
     if contains "DECILE" col then
       Frame.fillna_inplace col constants.FILL_VALUE_DECILE
     else if contains "_R" col && negb (contains "DECILE" col) then
       Frame.fillna_inplace col constants.FILL_VALUE_RECENCY
     else Frame.fillna_inplace col constants.FILL_VALUE_DEFAULT) df
  = (Ok tt, fill_cols cols df).
Proof.
  revert df. induction cols as [|col cols IH]; intros df Hdom; [done|].
  destruct (Hdom col) as [c Hc]; [left|].
  simpl. unfold bind at 1. rewrite (fill_body_run col c df Hc).
  apply IH. intros col' Hin.
  destruct (decide (col = col')) as [<-|Hne].
  - rewrite lookup_alter_eq, Hc. by eexists.
  - rewrite lookup_alter_ne by done. apply Hdom. by right.
Qed.

(** [_fill_missing_values] never raises and leaves the frame filled by the
    policy. *)
Lemma fill_missing_values_run (df : DataFrame) :
  DataLoader.fill_missing_values df = (Ok tt, fill_frame df).
Proof.
  unfold DataLoader.fill_missing_values, bind, Frame.columns.
  rewrite for_each_fill_run.
  - f_equal. apply map_eq. intros k. rewrite lookup_fill_frame.
    destruct (decide (k ∈ elements (dom df))) as [Hin|Hnotin].
    + apply lookup_fill_cols_in; [apply NoDup_elements|done].
    + rewrite lookup_fill_cols_notin by done.
      rewrite elem_of_elements, elem_of_dom in Hnotin.
      destruct (df !! k) eqn:Hk; [|done]. exfalso. apply Hnotin. by eexists.
  - intros col Hin. by rewrite elem_of_elements, elem_of_dom in Hin.
Qed.

Section fillna.

Lemma fillna_no_missing (v : Z) (c : column) : Series.no_missing (Series.fillna v c).
Proof.
  destruct c as [l|l|l]; simpl; [done| |];
    apply Forall_map, Forall_true; intros o; by eexists.
Qed.


(** The cell of row [i] after the fill: a missing cell holds the fill value,
    any other cell is unchanged. *)
Lemma fillna_cell (v : Z) (c : column) (i : nat) :
  Series.cell (Series.fillna v c) i =
  match Series.cell c i with
  | Some None =>
      Some (Some (match c with FloatCol _ => OFloat (inject_Z v) | _ => OInt v end))
  | other => other
  end.
Proof.
  destruct c as [l|l|l]; simpl.
  - by destruct (l !! i).
  - rewrite list_lookup_fmap. by destruct (l !! i) as [[q|]|].
  - rewrite list_lookup_fmap. by destruct (l !! i) as [[o|]|].
Qed.

End fillna.

(** ** Cleaning: clamping negative values *)

Section mapM.
Context {A B : Type} (f : A -> result B).

Lemma mapM_cons (a : A) (l : list A) :
  mapM f (a :: l) =
  match f a with
  | Ok b => match mapM f l with Ok bs => Ok (b :: bs) | Err e => Err e end
  | Err e => Err e
  end.
Proof. reflexivity. Qed.

Lemma mapM_Ok (l : list A) (l' : list B) :
  mapM f l = Ok l' <-> Forall2 (fun a b => f a = Ok b) l l'.
Proof.
  revert l'. induction l as [|a l IH]; intros l'; simpl.
  - split; [intros [= <-]; constructor|by inversion 1].
  - destruct (f a) as [b|e] eqn:Hfa.
    + destruct (mapM f l) as [bs|e] eqn:Hm.
      * split.
        -- intros [= <-]. constructor; [done|by apply IH].
        -- inversion 1 as [|? b' ? bs' Hb Hbs]; subst.
           apply IH in Hbs. congruence.
      * split; [done|]. inversion 1 as [|? b' ? bs' Hb Hbs]; subst.
        apply IH in Hbs. done.
    + split; [done|]. inversion 1; congruence.
Qed.

Lemma mapM_Ok_length (l : list A) (l' : list B) :
  mapM f l = Ok l' -> length l' = length l.
Proof. intros H%mapM_Ok. symmetry. by eapply Forall2_length. Qed.


End mapM.

Section clamp.

Lemma sum_zero (mask : list bool) :
  Series.sum mask = O -> Forall (fun b => b = false) mask.
Proof.
  unfold Series.sum. induction mask as [|b mask IH]; [constructor|].
  destruct b.
  - rewrite filter_cons_True by done. done.
  - rewrite filter_cons_False by done. intros H. constructor; auto.
Qed.

Lemma where_set_all_false {A} (zero : A) (mask : list bool) (l : list A) :
  Forall (fun b => b = false) mask -> length mask = length l ->
  Series.where_set zero mask l = l.
Proof.
  intros Hall. revert l. unfold Series.where_set.
  induction Hall as [|b mask -> _ IH]; intros [|x l]; simpl; try done.
  intros [= Hlen]. by rewrite IH.
Qed.

Lemma lt0_length (c : column) (mask : list bool) :
  Series.lt0 c = Ok mask -> length mask = Series.len c.
Proof.
  destruct c as [l|l|l]; simpl.
  - intros [= <-]. by rewrite length_map.
  - intros [= <-]. by rewrite length_map.
  - apply mapM_Ok_length.
Qed.

(** Nothing is written when the mask selects no row. *)
Lemma loc_set0_all_false (mask : list bool) (c : column) :
  Series.lt0 c = Ok mask -> Series.sum mask = O -> Series.loc_set0 mask c = c.
Proof.
  intros Hlen%lt0_length Hsum%sum_zero.
  destruct c as [l|l|l]; simpl in *; f_equal; by apply where_set_all_false.
Qed.

(** After the clamp no number of the column is negative. *)
Lemma loc_set0_nonneg (mask : list bool) (c : column) :
  Series.lt0 c = Ok mask -> nonneg_cells (Series.loc_set0 mask c).
Proof.
  destruct c as [l|l|l]; simpl.
  - intros [= <-]. unfold Series.where_set.
    induction l as [|z l IH]; simpl; constructor; [|done].
    destruct (Z.ltb_spec z 0); lia.
  - intros [= <-]. unfold Series.where_set.
    induction l as [|o l IH]; simpl; constructor; [|done].
    destruct o as [q|]; [|done]. unfold Series.Qltb.
    destruct (Qlt_le_dec q 0) as [?|Hle]; intros q' [= <-]; [|done].
    vm_compute. discriminate.
  - intros Hm%mapM_Ok. unfold Series.where_set.
    induction Hm as [|o b l mask Hb _ IH]; simpl; constructor; [|done].
    destruct o as [[z|q|s]|]; simpl in Hb; simplify_eq; simpl; [| |done].
    + destruct (Z.ltb_spec z 0); simpl; lia.
    + unfold Series.Qltb. destruct (Qlt_le_dec q 0) as [?|Hle]; simpl; [|done].
      lia.
Qed.


Lemma loc_set0_no_missing (mask : list bool) (c : column) :
  Series.no_missing c -> Series.no_missing (Series.loc_set0 mask c).
Proof.
  destruct c as [l|l|l]; simpl; [done| |]; unfold Series.where_set;
    intros Hall; revert mask;
    (induction Hall as [|o l Ho _ IH]; intros [|b mask]; simpl;
     [constructor..|]; constructor; [by destruct b|apply IH]).
Qed.

Lemma loc_set0_len (mask : list bool) (c : column) :
  Series.lt0 c = Ok mask -> Series.len (Series.loc_set0 mask c) = Series.len c.
Proof.
  intros Hlen%lt0_length.
  destruct c as [l|l|l]; simpl in *; unfold Series.where_set;
    rewrite length_zip_with; lia.
Qed.

End clamp.

(** What one block of [_fix_negative_values] does: nothing when the column
    is absent; the exception of the comparison when it raises; otherwise the
    clamped column is in the frame. *)
Lemma fix_negative_column_run (col : string) (df : DataFrame) :
  DataLoader.fix_negative_column col df =
  match df !! col with
  | None => (Ok tt, df)
  | Some c =>
      match Series.lt0 c with
      | Ok mask => (Ok tt, <[col := Series.loc_set0 mask c]> df)
      | Err e => (Err e, df)
      end
  end.
Proof.
  unfold DataLoader.fix_negative_column, bind, Frame.has, Frame.getitem, lift, ret.
  destruct (df !! col) as [c|] eqn:Hc.
  - rewrite bool_decide_eq_true_2 by by eexists.
    rewrite Hc.
    destruct (Series.lt0 c) as [mask|e] eqn:Hlt; [|done].
    destruct (Nat.ltb_spec 0 (Series.sum mask)) as [Hpos|Hzero].
    + unfold Frame.clamp_inplace, bind, Frame.getitem, lift, Frame.setitem.
      by rewrite Hc, Hlt.
    + rewrite loc_set0_all_false by (done || lia).
      by rewrite insert_id.
  - rewrite bool_decide_eq_false_2; [done|]. by intros [? ?].
Qed.

(** The legacy statement [data.col.loc[data.col < 0] = 0]. *)
Lemma clamp_attr_run (col : string) (df : DataFrame) :
  scorer.clamp_attr col df =
  match df !! col with
  | None => (Err (AttributeError col), df)
  | Some c =>
      match Series.lt0 c with
      | Ok mask => (Ok tt, <[col := Series.loc_set0 mask c]> df)
      | Err e => (Err e, df)
      end
  end.
Proof.
  unfold scorer.clamp_attr, bind, Frame.getattr, lift, Frame.setitem.
  destruct (df !! col) as [c|]; [|done]. by destruct (Series.lt0 c).
Qed.

(** ** Cleaning: type conversion *)

Lemma convert_body_run (f : column -> result column) (col : string) (df : DataFrame) :
  convert_body f col df =
  match df !! col with
  | None => (Ok tt, df)
  | Some c =>
      match f c with
      | Ok c' => (Ok tt, <[col := c']> df)
      | Err e => (Err e, df)
      end
  end.
Proof.
  unfold convert_body, bind, Frame.has, Frame.getitem, lift, Frame.setitem, ret.
  destruct (df !! col) as [c|] eqn:Hc.
  - rewrite bool_decide_eq_true_2 by by eexists.
    rewrite Hc. by destruct (f c).
  - rewrite bool_decide_eq_false_2; [done|]. by intros [? ?].
Qed.

Lemma convert_data_types_loops (df : DataFrame) :
  DataLoader.convert_data_types df =
  (for_each constants.KEY_COLUMNS
     (convert_body (fun c => Ok (Series.astype_object c))) ;;;
   for_each constants.INT_COLUMNS (convert_body Series.astype_int))%st df.
Proof.
  unfold DataLoader.convert_data_types, bind.
  rewrite (for_each_ext _ (convert_body (fun c => Ok (Series.astype_object c)))).
  - reflexivity.
  - intros col df'. unfold convert_body, bind, Frame.has, Frame.getitem, lift.
    destruct (bool_decide _); [|done]. by destruct (df' !! col).
Qed.

(** ** Triples for statements on a frame

    [triple P m Q]: when [m] runs on a frame that satisfies [P] and
    returns, the frame it leaves satisfies [Q]. *)

Section triples.

Lemma triple_seq {A B} (P Q R : DataFrame -> Prop)
    (m : ST DataFrame A) (k : A -> ST DataFrame B) :
  triple P m Q -> (forall a, triple Q (k a) R) ->
  triple P (bind m k) R.
Proof.
  intros Hm Hk df b df' HP. unfold bind.
  destruct (m df) as [[a|e] df1] eqn:Hrun; [|done].
  intros Hrun'. eapply Hk; [|exact Hrun']. eapply Hm; eauto.
Qed.

Lemma triple_conseq {A} (P P' Q Q' : DataFrame -> Prop) (m : ST DataFrame A) :
  (forall df, P' df -> P df) -> (forall df, Q df -> Q' df) ->
  triple P m Q -> triple P' m Q'.
Proof. intros HP HQ Hm df a df' H Hrun. eapply HQ, Hm; eauto. Qed.

Lemma triple_ext {A} (P Q : DataFrame -> Prop) (m m' : ST DataFrame A) :
  (forall df, m df = m' df) -> triple P m' Q -> triple P m Q.
Proof. intros Hext Hm df a df' HP. rewrite Hext. by apply Hm. Qed.

Lemma triple_fill_missing_values :
  triple (fun _ => True)
    DataLoader.fill_missing_values
    (each_col (fun _ c => Series.no_missing c)).
Proof.
  intros df [] df' _. rewrite fill_missing_values_run. intros [= <-].
  intros name c. rewrite lookup_fill_frame.
  destruct (df !! name); intros [= <-]. apply fillna_no_missing.
Qed.

Lemma triple_fix_negative_column (col : string) (P Q : string -> column -> Prop) :
  (forall name c, name <> col -> P name c -> Q name c) ->
  (forall c mask, P col c -> Series.lt0 c = Ok mask ->
                  Q col (Series.loc_set0 mask c)) ->
  triple (each_col P) (DataLoader.fix_negative_column col) (each_col Q).
Proof.
  intros Hother Hcol df [] df' HP. rewrite fix_negative_column_run.
  destruct (df !! col) as [c|] eqn:Hc.
  - destruct (Series.lt0 c) as [mask|e] eqn:Hlt; [|done].
    intros [= <-] name c'.
    destruct (decide (col = name)) as [<-|Hne].
    + rewrite lookup_insert_eq. intros [= <-]. apply Hcol; [|done]. by apply HP.
    + rewrite lookup_insert_ne by done. intros Hn. apply Hother; [done|].
      by apply HP.
  - intros [= <-] name c' Hn. apply Hother; [|by apply HP]. intros ->. congruence.
Qed.

Lemma triple_convert_loop (f : column -> result column) (cols : list string)
    (P Q : string -> column -> Prop) :
  NoDup cols ->
  (forall name c, name ∉ cols -> P name c -> Q name c) ->
  (forall name c c', name ∈ cols -> P name c -> f c = Ok c' -> Q name c') ->
  triple (each_col P) (for_each cols (convert_body f)) (each_col Q).
Proof.
  intros Hnd Hother Hcol.
  (* the columns already visited satisfy [Q], the others still satisfy [P] *)
  assert (Hgen : forall todo done_ : list string,
    NoDup todo -> (forall n, n ∈ cols <-> n ∈ done_ \/ n ∈ todo) ->
    (forall n, n ∈ done_ -> n ∉ todo) ->
    triple (fun df => forall name c, df !! name = Some c ->
                 if decide (name ∈ done_) then Q name c else P name c) (for_each todo (convert_body f)) (each_col Q)).
  { induction todo as [|col todo IH]; intros done_ Hnd' Hsplit Hdisj.
    - intros df [] df' Hdf [= <-] name c Hn. specialize (Hdf name c Hn).
      destruct (decide (name ∈ done_)) as [|Hnotin]; [done|].
      apply Hother; [|done]. rewrite Hsplit. intros [?|?%elem_of_nil]; done.
    - apply NoDup_cons in Hnd' as [Hnotin Hnd'].
      simpl. eapply triple_seq; [|intros _; apply (IH (col :: done_) Hnd')].
      + intros df [] df' Hdf. rewrite convert_body_run.
        assert (Hcol_new : col ∉ done_).
        { intros Hin. apply (Hdisj col Hin). by left. }
        destruct (df !! col) as [c|] eqn:Hc.
        * destruct (f c) as [c'|e] eqn:Hf; [|done].
          intros [= <-] name c0.
          destruct (decide (col = name)) as [<-|Hne].
          -- rewrite lookup_insert_eq. intros [= <-].
             rewrite decide_True by by left.
             apply (Hcol col c); [apply Hsplit; right; by left| |done].
             specialize (Hdf col c Hc). by rewrite decide_False in Hdf.
          -- rewrite lookup_insert_ne by done. intros Hn.
             specialize (Hdf name c0 Hn).
             destruct (decide (name ∈ done_)) as [Hin|Hnin].
             ++ rewrite decide_True by by right. done.
             ++ rewrite decide_False; [done|].
                intros [?|?]%elem_of_cons; congruence.
        * intros [= <-] name c0 Hn. specialize (Hdf name c0 Hn).
          assert (name <> col) by congruence.
          destruct (decide (name ∈ done_)) as [Hin|Hnin].
          -- rewrite decide_True by by right. done.
          -- rewrite decide_False; [done|].
             intros [?|?]%elem_of_cons; congruence.
      + intros n. rewrite Hsplit, !elem_of_cons. tauto.
      + intros n [->|Hin]%elem_of_cons; [done|].
        intros Hin'. apply (Hdisj n Hin). by right. }
  eapply triple_conseq; [| |apply (Hgen cols [] Hnd)].
  - intros df Hdf name c Hn. rewrite decide_False by apply not_elem_of_nil.
    by apply Hdf.
  - done.
  - intros n. rewrite elem_of_nil. tauto.
  - intros n ?%elem_of_nil. done.
Qed.

End triples.

Section astype.

Lemma trunc_nonneg (q : Q) : (0 <= q)%Q -> 0 <= Series.trunc q.
Proof.
  unfold Qle, Series.trunc. simpl. intros H.
  apply Z.quot_pos; lia.
Qed.

Lemma astype_object_no_missing (c : column) :
  Series.no_missing c -> Series.no_missing (Series.astype_object c).
Proof.
  destruct c as [l|l|l]; simpl; [| |done].
  - intros _. apply Forall_map, Forall_true. intros z. by eexists.
  - intros Hall. apply Forall_map. eapply Forall_impl; [exact Hall|].
    intros o [q ->]. by eexists.
Qed.

Lemma astype_object_is_obj (c : column) : exists l, Series.astype_object c = ObjCol l.
Proof. destruct c; simpl; by eexists. Qed.

Lemma astype_int_is_int (c c' : column) :
  Series.astype_int c = Ok c' -> exists l, c' = IntCol l.
Proof.
  destruct c as [l|l|l]; simpl.
  - intros [= <-]. by eexists.
  - destruct (mapM Series.float_to_int l); simpl; intros [= <-]. by eexists.
  - destruct (mapM Series.obj_to_int l); simpl; intros [= <-]. by eexists.
Qed.

Lemma astype_int_nonneg (c c' : column) :
  nonneg_cells c -> Series.astype_int c = Ok c' -> nonneg_cells c'.
Proof.
  destruct c as [l|l|l]; simpl.
  - intros H [= <-]. done.
  - intros Hall. destruct (mapM Series.float_to_int l) as [zs|] eqn:Hm; simpl; [|done].
    intros [= <-]. simpl. apply mapM_Ok in Hm.
    induction Hm as [|o z l zs Hz _ IH]; [constructor|].
    apply Forall_cons in Hall as [Ho Hall]. constructor; [|by apply IH].
    destruct o as [q|]; simpl in Hz; [|done]. simplify_eq.
    apply trunc_nonneg. by apply Ho.
  - intros Hall. destruct (mapM Series.obj_to_int l) as [zs|] eqn:Hm; simpl; [|done].
    intros [= <-]. simpl. apply mapM_Ok in Hm.
    induction Hm as [|o z l zs Hz _ IH]; [constructor|].
    apply Forall_cons in Hall as [Ho Hall]. constructor; [|by apply IH].
    destruct o as [[z'|q|s]|]; simpl in Hz, Ho; simplify_eq; try done.
    by apply trunc_nonneg.
Qed.

Lemma astype_object_id (l : list (option obj)) :
  Series.astype_object (ObjCol l) = ObjCol l.
Proof. done. Qed.

Lemma astype_int_id (l : list Z) : Series.astype_int (IntCol l) = Ok (IntCol l).
Proof. done. Qed.

End astype.

(** ** The cleaned frame *)

Lemma monetary_not_key (name : string) :
  name ∈ MONETARY_COLUMNS -> name ∉ constants.KEY_COLUMNS.
Proof. intros H. names; by apply (bool_decide_unpack _). Qed.


Lemma key_not_int (name : string) :
  name ∈ constants.KEY_COLUMNS -> name ∉ constants.INT_COLUMNS.
Proof. intros H. names; by apply (bool_decide_unpack _). Qed.

Lemma NoDup_KEY_COLUMNS : NoDup constants.KEY_COLUMNS.
Proof. by apply (bool_decide_unpack _). Qed.

Lemma NoDup_INT_COLUMNS : NoDup constants.INT_COLUMNS.
Proof. by apply (bool_decide_unpack _). Qed.

(** A cleaning pass that returns leaves a clean frame. *)
Lemma triple_preprocess_steps :
  triple (fun _ => True) DataLoader.preprocess_steps Clean.
Proof.
  unfold DataLoader.preprocess_steps, DataLoader.fix_negative_values.
  eapply triple_seq; [apply triple_fill_missing_values|intros _].
  eapply triple_seq.
  { eapply triple_seq.
    - apply (triple_fix_negative_column "SALES_6M" _
               (fun name c => Series.no_missing c /\
                              (name = "SALES_6M" -> nonneg_cells c))).
      + intros name c Hne Hc. split; [done|]. by intros ->.
      + intros c mask Hc Hlt. split; [by apply loc_set0_no_missing|].
        intros _. by apply loc_set0_nonneg.
    - intros _.
      apply (triple_fix_negative_column "COUPON_EXPENSE_6M" _
               (fun name c => Series.no_missing c /\
                              (name ∈ MONETARY_COLUMNS -> nonneg_cells c))).
      + intros name c Hne [Hc Hs]. split; [done|]. intros Hin. names; auto.
        done.
      + intros c mask [Hc _] Hlt. split; [by apply loc_set0_no_missing|].
        intros _. by apply loc_set0_nonneg. }
  intros _. eapply triple_ext; [apply convert_data_types_loops|].
  eapply triple_seq.
  - apply (triple_convert_loop _ _ _
             (fun name c => Series.no_missing c /\
                            (name ∈ MONETARY_COLUMNS -> nonneg_cells c) /\
                            (name ∈ constants.KEY_COLUMNS -> exists l, c = ObjCol l)));
      [apply NoDup_KEY_COLUMNS|..].
    + intros name c Hnotin [Hc Hm]. repeat split; try done.
    + intros name c c' Hin [Hc Hm] [= <-]. split; [|split].
      * by apply astype_object_no_missing.
      * intros Hmon. by apply monetary_not_key in Hmon.
      * intros _. apply astype_object_is_obj.
  - intros _. apply triple_convert_loop; [apply NoDup_INT_COLUMNS|..].
    + intros name c Hnotin (Hc & Hm & Hk). repeat split; try done.
    + intros name c c' Hin (Hc & Hm & Hk) Hc'.
      destruct (astype_int_is_int _ _ Hc') as [l ->].
      split; [done|]. split; [|split].
      * intros Hmon. eapply astype_int_nonneg; [|exact Hc']. auto.
      * intros Hkey. by apply key_not_int in Hkey.
      * intros _. by eexists.
Qed.

(** ** A cleaning pass on a clean frame *)






Lemma cleaned_Clean (df df' : DataFrame) : cleaned df = Ok df' -> Clean df'.
Proof.
  unfold cleaned, returned.
  destruct (DataLoader.preprocess_steps df) as [[[]|e] df1] eqn:Hrun; [|done].
  intros [= <-]. by eapply triple_preprocess_steps.
Qed.


(** ** [_preprocess_data] on the store *)

Section store.

(** [_preprocess_data] copies the frame of its argument into a new object,
    runs the three steps on the copy and returns the copy. *)
Lemma preprocess_data_run (l : loc) (h : store) :
  DataLoaderObj._preprocess_data l h =
  match h !! l with
  | None => (Err NoSuchObject, h)
  | Some df =>
      let l' := fresh (dom h) in
      match DataLoader.preprocess_steps df with
      | (Ok _, df') => (Ok l', <[l' := df']> h)
      | (Err e, df') => (Err e, <[l' := df']> h)
      end
  end.
Proof.
  unfold DataLoaderObj._preprocess_data, bind at 1, Store.copy.
  destruct (h !! l) as [df|] eqn:Hl; [|done]. simpl.
  set (l' := fresh (dom h)). set (h0 := <[l' := df]> h).
  assert (Hl' : h0 !! l' = Some df) by apply lookup_insert_eq.
  unfold DataLoaderObj._fill_missing_values, DataLoaderObj._fix_negative_values,
    DataLoaderObj._convert_data_types, DataLoader.preprocess_steps.
  unfold bind, Store.at_, ret. rewrite Hl'.
  destruct (DataLoader.fill_missing_values df) as [[[]|e] df1];
    [|by unfold h0; rewrite insert_insert_eq].
  rewrite lookup_insert_eq.
  destruct (DataLoader.fix_negative_values df1) as [[[]|e] df2];
    [|by unfold h0; rewrite !insert_insert_eq].
  rewrite lookup_insert_eq.
  destruct (DataLoader.convert_data_types df2) as [[[]|e] df3];
    unfold h0; by rewrite !insert_insert_eq.
Qed.


End store.

(** ** The columns of a frame are kept by every step *)

Section same_columns.

Lemma dom_fill_frame (df : DataFrame) : dom (fill_frame df) = dom df.
Proof.
  apply set_eq. intros name. rewrite !elem_of_dom, lookup_fill_frame.
  destruct (df !! name); simpl; split; intros [? ?]; by eauto.
Qed.

Lemma triple_fix_negative_column_dom (col : string) (D : gset string) :
  triple (fun df => dom df = D) (DataLoader.fix_negative_column col)
         (fun df => dom df = D).
Proof.
  intros df [] df' <-. rewrite fix_negative_column_run.
  destruct (df !! col) as [c|] eqn:Hc; [|by intros [= <-]].
  destruct (Series.lt0 c); [|done]. intros [= <-].
  apply dom_insert_lookup_L. by eexists.
Qed.

Lemma triple_convert_loop_dom (f : column -> result column) (cols : list string)
    (D : gset string) :
  triple (fun df => dom df = D) (for_each cols (convert_body f))
         (fun df => dom df = D).
Proof.
  induction cols as [|col cols IH]; [by intros df [] df' <- [= <-]|].
  simpl. eapply triple_seq; [|intros _; exact IH].
  intros df [] df' <-. rewrite convert_body_run.
  destruct (df !! col) as [c|] eqn:Hc; [|by intros [= <-]].
  destruct (f c); [|done]. intros [= <-].
  apply dom_insert_lookup_L. by eexists.
Qed.

Lemma triple_preprocess_steps_dom (D : gset string) :
  triple (fun df => dom df = D) DataLoader.preprocess_steps (fun df => dom df = D).
Proof.
  unfold DataLoader.preprocess_steps, DataLoader.fix_negative_values.
  apply (triple_seq _ (fun df => dom df = D)); [|intros _].
  { intros df [] df' <-. rewrite fill_missing_values_run. intros [= <-].
    apply dom_fill_frame. }
  apply (triple_seq _ (fun df => dom df = D)); [|intros _].
  { apply (triple_seq _ (fun df => dom df = D)); [|intros _];
      apply triple_fix_negative_column_dom. }
  eapply triple_ext; [apply convert_data_types_loops|].
  apply (triple_seq _ (fun df => dom df = D)); [|intros _];
    apply triple_convert_loop_dom.
Qed.

Lemma cleaned_dom (df df' : DataFrame) : cleaned df = Ok df' -> dom df' = dom df.
Proof.
  unfold cleaned, returned.
  destruct (DataLoader.preprocess_steps df) as [[[]|e] df1] eqn:Hrun; [|done].
  intros [= <-]. by eapply (triple_preprocess_steps_dom (dom df)).
Qed.

End same_columns.

Lemma astype_object_holds_int (v : Z) (c : column) (i : nat) :
  holds_int v c i -> holds_int v (Series.astype_object c) i.
Proof.
  unfold holds_int. destruct c as [l|l|l]; simpl; [| |done].
  - rewrite list_lookup_fmap. destruct (l !! i); simpl; intros [H|H]; simplify_eq.
    by left.
  - rewrite list_lookup_fmap. destruct (l !! i) as [[q|]|]; simpl;
      intros [H|H]; simplify_eq. by right.
Qed.

Lemma trunc_inject_Z (v : Z) : Series.trunc (inject_Z v) = v.
Proof. unfold Series.trunc. simpl. apply Z.quot_1_r. Qed.

Lemma astype_int_holds_int (v : Z) (c c' : column) (i : nat) :
  holds_int v c i -> Series.astype_int c = Ok c' ->
  Series.cell c' i = Some (Some (OInt v)).
Proof.
  unfold holds_int. destruct c as [l|l|l]; simpl.
  - intros [H|H] [= <-]; [done|]. simpl. by destruct (l !! i).
  - destruct (mapM Series.float_to_int l) as [zs|] eqn:Hm; simpl; [|done].
    intros H [= <-]. simpl. apply mapM_Ok in Hm.
    destruct (l !! i) as [o|] eqn:Hl; simpl in H; [|by destruct H].
    destruct (Forall2_lookup_l _ _ _ _ _ Hm Hl) as (z & -> & Hz). simpl.
    destruct o as [q|]; simpl in *; [|by destruct H].
    destruct H as [H|H]; simplify_eq. by rewrite trunc_inject_Z.
  - destruct (mapM Series.obj_to_int l) as [zs|] eqn:Hm; simpl; [|done].
    intros H [= <-]. simpl. apply mapM_Ok in Hm.
    destruct (l !! i) as [o|] eqn:Hl; [|by destruct H].
    destruct (Forall2_lookup_l _ _ _ _ _ Hm Hl) as (z & -> & Hz). simpl.
    destruct H as [H|H]; simplify_eq; simpl in Hz; simplify_eq; [done|].
    by rewrite trunc_inject_Z.
Qed.

Lemma triple_filled_cell (name : string) (v : Z) (i : nat) :
  name ∉ MONETARY_COLUMNS ->
  triple (each_col (fun n c => n = name -> holds_int v c i))
    (DataLoader.fix_negative_values ;;; DataLoader.convert_data_types)%st
    (each_col (fun n c => n = name ->
       if decide (name ∈ constants.INT_COLUMNS)
       then Series.cell c i = Some (Some (OInt v))
       else holds_int v c i)).
Proof.
  intros Hmon. unfold DataLoader.fix_negative_values.
  eapply triple_seq; [eapply triple_seq; [|intros _]|intros _].
  - apply (triple_fix_negative_column _ _ (fun n c => n = name -> holds_int v c i)).
    + auto.
    + intros c mask _ _ <-. exfalso. apply Hmon. by apply (bool_decide_unpack _).
  - apply (triple_fix_negative_column _ _ (fun n c => n = name -> holds_int v c i)).
    + auto.
    + intros c mask _ _ <-. exfalso. apply Hmon. by apply (bool_decide_unpack _).
  - eapply triple_ext; [apply convert_data_types_loops|].
    eapply triple_seq; [|intros _].
    + apply (triple_convert_loop _ _ _ (fun n c => n = name -> holds_int v c i));
        [apply NoDup_KEY_COLUMNS|auto|].
      intros n c c' _ Hc [= <-] Hn. by apply astype_object_holds_int, Hc.
    + apply triple_convert_loop; [apply NoDup_INT_COLUMNS|..].
      * intros n c Hnotin Hc ->. rewrite decide_False by done. by apply Hc.
      * intros n c c' Hin Hc Hint ->. rewrite decide_True by done.
        eapply astype_int_holds_int; [|exact Hint]. by apply Hc.
Qed.

(** ** The claims on the cleaning stage *)

Lemma fix_negative_values_lookup (df df' : DataFrame) (r : result unit) :
  DataLoader.fix_negative_values df = (r, df') ->
  (forall name, name ∉ MONETARY_COLUMNS -> df' !! name = df !! name) /\
  (r = Ok tt -> forall name c, name ∈ MONETARY_COLUMNS -> df !! name = Some c ->
     exists mask, Series.lt0 c = Ok mask /\
                  df' !! name = Some (Series.loc_set0 mask c)).
Proof.
  unfold DataLoader.fix_negative_values, bind.
  rewrite fix_negative_column_run.
  assert (Hstep : forall (col : string) (d d' : DataFrame) (r' : result unit),
    DataLoader.fix_negative_column col d = (r', d') ->
    (forall name, name <> col -> d' !! name = d !! name) /\
    (r' = Ok tt -> forall c, d !! col = Some c ->
       exists mask, Series.lt0 c = Ok mask /\
                    d' !! col = Some (Series.loc_set0 mask c))).
  { intros col d d' r'. rewrite fix_negative_column_run.
    destruct (d !! col) as [c|] eqn:Hc.
    - destruct (Series.lt0 c) as [mask|e] eqn:Hlt; intros [= <- <-].
      + split; [intros name Hne; by rewrite lookup_insert_ne|].
        intros _ c' [= <-]. exists mask. by rewrite lookup_insert_eq.
      + split; [done|done].
    - intros [= <- <-]. split; [done|]. intros _ c' [=]. }
  destruct (df !! "SALES_6M") as [c|] eqn:Hs.
  - destruct (Series.lt0 c) as [mask|e] eqn:Hlt.
    + intros [Hother Hcol]%Hstep. split.
      * intros name Hn. names. rewrite Hother by done. by rewrite lookup_insert_ne.
      * intros -> name c' Hin Hc'. names.
        -- simplify_eq. exists mask. split; [done|].
           rewrite Hother by done. by rewrite lookup_insert_eq.
        -- apply Hcol; [done|]. by rewrite lookup_insert_ne.
    + intros [= <- <-]. split; [done|done].
  - intros [Hother Hcol]%Hstep. split.
    + intros name Hn. names. by apply Hother.
    + intros -> name c' Hin Hc'. names; [congruence|]. by apply Hcol.
Qed.

(** C3: the cleaning stage fills the missing values of every column by the
    name of the column, in this priority order: 11 when the name contains
    "DECILE"; otherwise 366 when it contains "_R"; otherwise 0.  The loop of
    [_fill_missing_values] (and the one of the legacy [data_upload]) never
    raises and leaves every column [name] of the input filled with
    [fill_value name]: a missing cell holds the fill value, any other cell is
    unchanged.  When the whole cleaning pass returns, the column is still in
    the table and holds no missing value, and a row that was missing in
    BBB_INSTORE_RFM_DECILE holds the integer 11. *)
Theorem C3_fill_policy (df : DataFrame) (name : string) (c : column) :
  df !! name = Some c ->
  DataLoader.fill_missing_values df = (Ok tt, fill_frame df) /\
  scorer.fill_loop df = (Ok tt, fill_frame df) /\
  fill_frame df !! name = Some (Series.fillna (fill_value name) c) /\
  Series.no_missing (Series.fillna (fill_value name) c) /\
  (forall i,
     Series.cell (Series.fillna (fill_value name) c) i =
     match Series.cell c i with
     | Some None =>
         Some (Some (match c with
                     | FloatCol _ => OFloat (inject_Z (fill_value name))
                     | _ => OInt (fill_value name)
                     end))
     | other => other
     end) /\
  fill_value "BBB_INSTORE_RFM_DECILE" = 11 /\
  (forall df', cleaned df = Ok df' ->
     exists c', df' !! name = Some c' /\ Series.no_missing c' /\
       forall i, name = "BBB_INSTORE_RFM_DECILE" ->
                 Series.cell c i = Some None ->
                 Series.cell c' i = Some (Some (OInt 11))).
Proof.
  intros Hc. repeat split.
  - apply fill_missing_values_run.
  - apply fill_missing_values_run.
  - by rewrite lookup_fill_frame, Hc.
  - apply fillna_no_missing.
  - intros i. apply fillna_cell.
  - intros df' Hclean.
    assert (Hin : is_Some (df' !! name)).
    { apply elem_of_dom. rewrite (cleaned_dom _ _ Hclean). apply elem_of_dom.
      by eexists. }
    destruct Hin as [c' Hc']. exists c'. split; [done|]. split.
    { by destruct (cleaned_Clean _ _ Hclean name c' Hc'). }
    intros i -> Hmiss.
    revert Hclean. unfold cleaned, returned, DataLoader.preprocess_steps, bind at 1.
    rewrite fill_missing_values_run.
    destruct ((DataLoader.fix_negative_values ;;; DataLoader.convert_data_types)%st
                (fill_frame df)) as [[[]|e] df1] eqn:Hrun; [|done].
    intros [= ->].
    assert (Hnot : "BBB_INSTORE_RFM_DECILE" ∉ MONETARY_COLUMNS)
      by by apply (bool_decide_unpack _).
    assert (Hpre : each_col
      (fun n c0 => n = "BBB_INSTORE_RFM_DECILE" -> holds_int 11 c0 i)
      (fill_frame df)); last first.
    { pose proof (triple_filled_cell "BBB_INSTORE_RFM_DECILE" 11 i Hnot
                    (fill_frame df) tt df' Hpre Hrun _ _ Hc' eq_refl) as Hcell.
      by rewrite decide_True in Hcell by by apply (bool_decide_unpack _). }
    intros n c0. rewrite lookup_fill_frame. intros Hn ->. rewrite Hc in Hn.
    simpl in Hn. simplify_eq. unfold holds_int. rewrite fillna_cell, Hmiss.
    destruct c; [by left|by right|by left].
Qed.

Lemma C3_fill_policy_witness :
  example_batch !! "BBB_INSTORE_RFM_DECILE"
    = Some (FloatCol [Some (5 # 1); None; Some (3 # 1); None; Some (10 # 1)]%Q) /\
  fill_frame example_batch !! "BBB_INSTORE_RFM_DECILE"
    = Some (Series.fillna (fill_value "BBB_INSTORE_RFM_DECILE")
              (FloatCol [Some (5 # 1); None; Some (3 # 1); None; Some (10 # 1)]%Q)).
Proof.
  assert (H : example_batch !! "BBB_INSTORE_RFM_DECILE"
    = Some (FloatCol [Some (5 # 1); None; Some (3 # 1); None; Some (10 # 1)]%Q))
    by (vm_compute; reflexivity).
  split; [exact H|].
  exact (proj1 (proj2 (proj2 (C3_fill_policy _ _ _ H)))).
Defined.






(** C9: [_preprocess_data] never mutates its input.  Whatever it returns or
    raises, the table its argument refers to is unchanged, and so is every
    other object that existed before the call; the only change of the store
    is the new object that holds the copy, and on return that new object is
    the result. *)
Theorem C9_input_not_mutated (h : store) (l : loc) :
  let r := (DataLoaderObj._preprocess_data l h).1 in
  let h' := (DataLoaderObj._preprocess_data l h).2 in
  h' !! l = h !! l /\
  (forall l0, is_Some (h !! l0) -> h' !! l0 = h !! l0) /\
  (forall l0, l0 <> fresh (dom h) -> h' !! l0 = h !! l0) /\
  (forall l', r = Ok l' -> l' = fresh (dom h) /\ h !! l' = None /\ is_Some (h' !! l')).
Proof.
  simpl. rewrite preprocess_data_run.
  assert (Hfresh : h !! fresh (dom h) = None).
  { apply not_elem_of_dom, is_fresh. }
  destruct (h !! l) as [df|] eqn:Hl; simpl; [|by repeat split].
  assert (Hne : fresh (dom h) <> l) by congruence.
  assert (Hkeep : forall (d : DataFrame) (l0 : loc),
            l0 <> fresh (dom h) -> <[fresh (dom h) := d]> h !! l0 = h !! l0).
  { intros d l0 Hl0. by rewrite lookup_insert_ne. }
  destruct (DataLoader.preprocess_steps df) as [[[]|e] df']; simpl.
  - split; [by rewrite Hkeep|]. split; [|split; [by auto|]].
    + intros l0 [d Hd]. apply Hkeep. congruence.
    + intros l' [= <-]. split; [done|]. split; [done|].
      rewrite lookup_insert_eq. by eexists.
  - split; [by rewrite Hkeep|]. split; [|split; [by auto|done]].
    intros l0 [d Hd]. apply Hkeep. congruence.
Qed.

(** ** The legacy cleaning of [scorer.data_upload] *)

Section legacy.

Lemma returned_bind (m k : ST DataFrame unit) (df : DataFrame) :
  returned (m ;;; k)%st df = (df1 <- returned m df ;; returned k df1)%result.
Proof.
  unfold returned, bind. destruct (m df) as [[[]|e] df1]; simpl; [|done].
  by destruct (k df1) as [[[]|e] df2].
Qed.

Lemma returned_ext (m m' : ST DataFrame unit) (df : DataFrame) :
  m df = m' df -> returned m df = returned m' df.
Proof. unfold returned. by intros ->. Qed.

Lemma getitems_run (cols : list string) (cs : list column) (df : DataFrame) :
  Forall2 (fun col c => df !! col = Some c) cols cs ->
  Frame.getitems cols df = (Ok cs, df).
Proof.
  induction 1 as [|col c cols cs Hc _ IH]; [done|].
  simpl. unfold bind, Frame.getitem, ret. by rewrite Hc, IH.
Qed.

Lemma present_columns (cols : list string) (df : DataFrame) :
  (forall col, col ∈ cols -> col ∈ dom df) ->
  exists cs, Forall2 (fun col c => df !! col = Some c) cols cs.
Proof.
  induction cols as [|col cols IH]; intros Hin; [by exists nil|].
  destruct IH as [cs Hcs]; [intros col' ?; apply Hin; by right|].
  assert (Hcol : col ∈ dom df) by (apply Hin; by left).
  apply elem_of_dom in Hcol as [c Hc].
  exists (c :: cs). by constructor.
Qed.

Lemma convert_block_run (f : column -> result column) (cols : list string)
    (cs : list column) (df : DataFrame) :
  Forall2 (fun col c => df !! col = Some c) cols cs ->
  convert_block f cols df =
  match mapM f cs with
  | Ok cs' => Frame.setitems cols cs' df
  | Err e => (Err e, df)
  end.
Proof.
  intros Hcs. unfold convert_block, bind at 1. rewrite (getitems_run _ _ _ Hcs).
  unfold bind, lift. by destruct (mapM f cs).
Qed.

Lemma present_after_insert (col : string) (c' : column) (cols : list string)
    (cs : list column) (df : DataFrame) :
  col ∉ cols ->
  Forall2 (fun col0 c0 => df !! col0 = Some c0) cols cs ->
  Forall2 (fun col0 c0 => <[col := c']> df !! col0 = Some c0) cols cs.
Proof.
  intros Hnotin Hcs. induction Hcs as [|col0 c0 cols cs Hc0 _ IH]; [constructor|].
  apply not_elem_of_cons in Hnotin as [Hne Hnotin].
  constructor; [by rewrite lookup_insert_ne|by apply IH].
Qed.

(** When the columns are all there, the block returns what the loop over the
    same columns returns, or raises what the loop raises. *)
Lemma convert_block_loop (f : column -> result column) (cols : list string)
    (df : DataFrame) :
  NoDup cols -> (forall col, col ∈ cols -> col ∈ dom df) ->
  returned (convert_block f cols) df = returned (for_each cols (convert_body f)) df.
Proof.
  intros Hnd. revert df. induction Hnd as [|col cols Hnotin Hnd IH]; intros df Hin.
  - done.
  - destruct (present_columns _ _ Hin) as [cs Hcs].
    inversion Hcs as [|? c ? cs0 Hc Hcs0]; subst.
    simpl for_each. rewrite returned_bind.
    unfold returned at 1 2. rewrite (convert_block_run f _ _ _ Hcs).
    rewrite convert_body_run, Hc. simpl mapM.
    destruct (f c) as [c'|e] eqn:Hf; simpl; [|done].
    rewrite <- IH.
    + unfold returned.
      rewrite (convert_block_run f _ _ _
                 (present_after_insert col c' _ _ _ Hnotin Hcs0)).
      destruct (mapM f cs0) as [cs'|e]; [|done].
      simpl. unfold bind, Frame.setitem. done.
    + intros col' Hin'. rewrite dom_insert_L. apply elem_of_union_r, Hin. by right.
Qed.

Lemma mapM_total_fun {A B} (g : A -> B) (l : list A) :
  mapM (fun a => Ok (g a)) l = Ok (map g l).
Proof. induction l as [|a l IH]; simpl; [done|by rewrite IH]. Qed.

(** The statements of lines 79-80 and 81-87 of [scorer.py]. *)
Lemma legacy_key_block (df : DataFrame) :
  (cs <- Frame.getitems scorer.key ;;
   Frame.setitems scorer.key (map Series.astype_object cs))%st df
  = convert_block (fun c => Ok (Series.astype_object c)) scorer.key df.
Proof.
  unfold convert_block, bind, lift.
  destruct (Frame.getitems scorer.key df) as [[cs|e] df1]; [|done].
  by rewrite mapM_total_fun.
Qed.

Lemma returned_bind_Ok (m k : ST DataFrame unit) (df df1 : DataFrame) :
  m df = (Ok tt, df1) -> returned (m ;;; k)%st df = returned k df1.
Proof. intros H. unfold returned, bind. by rewrite H. Qed.

Lemma returned_bind_Err (m k : ST DataFrame unit) (df df1 : DataFrame) (e : exn) :
  m df = (Err e, df1) -> returned (m ;;; k)%st df = Err e.
Proof. intros H. unfold returned, bind. by rewrite H. Qed.

Lemma bind_assoc (a b c : ST DataFrame unit) (df : DataFrame) :
  ((a ;;; b) ;;; c)%st df = (a ;;; (b ;;; c))%st df.
Proof.
  unfold bind. destruct (a df) as [[[]|e] d1]; [|done].
  by destruct (b d1) as [[[]|e] d2].
Qed.

Lemma returned_Ok_run (m : ST DataFrame unit) (df df' : DataFrame) :
  returned m df = Ok df' -> m df = (Ok tt, df').
Proof.
  unfold returned. destruct (m df) as [[[]|e] d]; [|done]. by intros [= ->].
Qed.

End legacy.

(** C10: on every table that has SALES_6M, COUPON_EXPENSE_6M, CUSTOMER_ID,
    ADDRESS_ID and the integer columns, the cleaning statements of the legacy
    [scorer.data_upload] and the steps of [DataLoader._preprocess_data]
    return equal tables, and when one of them raises the other raises the
    same exception. *)
Theorem C10_legacy_refactored_equal (df : DataFrame) :
  (forall name, name ∈ LEGACY_COLUMNS -> is_Some (df !! name)) ->
  returned scorer.data_upload_clean df = returned DataLoader.preprocess_steps df.
Proof.
  intros Hin. unfold scorer.data_upload_clean, DataLoader.preprocess_steps.
  assert (Hdom : forall name, name ∈ LEGACY_COLUMNS -> name ∈ dom df).
  { intros name Hn. by apply elem_of_dom, Hin. }
  (* the fill loops *)
  rewrite (returned_bind_Ok scorer.fill_loop _ _ _ (fill_missing_values_run df)).
  rewrite (returned_bind_Ok DataLoader.fill_missing_values _ _ _
             (fill_missing_values_run df)).
  set (d0 := fill_frame df).
  assert (Hd0 : dom d0 = dom df) by apply dom_fill_frame.
  unfold DataLoader.fix_negative_values.
  rewrite (returned_ext _ _ _ (bind_assoc _ _ _ d0)).
  (* SALES_6M *)
  destruct (d0 !! "SALES_6M") as [cS|] eqn:HS; last first.
  { exfalso. apply not_elem_of_dom in HS. apply HS. rewrite Hd0.
    apply Hdom. by apply (bool_decide_unpack _). }
  pose proof (clamp_attr_run "SALES_6M" d0) as HlegS.
  pose proof (fix_negative_column_run "SALES_6M" d0) as HnewS.
  rewrite HS in HlegS, HnewS.
  destruct (Series.lt0 cS) as [maskS|e].
  2: { by rewrite (returned_bind_Err _ _ _ _ _ HlegS),
                  (returned_bind_Err _ _ _ _ _ HnewS). }
  rewrite (returned_bind_Ok _ _ _ _ HlegS), (returned_bind_Ok _ _ _ _ HnewS).
  clear HlegS HnewS.
  set (d1 := <["SALES_6M" := Series.loc_set0 maskS cS]> d0).
  assert (Hd1 : dom d1 = dom df).
  { unfold d1. rewrite dom_insert_lookup_L by by eexists. done. }
  (* COUPON_EXPENSE_6M *)
  destruct (d1 !! "COUPON_EXPENSE_6M") as [cC|] eqn:HC; last first.
  { exfalso. apply not_elem_of_dom in HC. apply HC. rewrite Hd1.
    apply Hdom. by apply (bool_decide_unpack _). }
  pose proof (clamp_attr_run "COUPON_EXPENSE_6M" d1) as HlegC.
  pose proof (fix_negative_column_run "COUPON_EXPENSE_6M" d1) as HnewC.
  rewrite HC in HlegC, HnewC.
  destruct (Series.lt0 cC) as [maskC|e].
  2: { by rewrite (returned_bind_Err _ _ _ _ _ HlegC),
                  (returned_bind_Err _ _ _ _ _ HnewC). }
  rewrite (returned_bind_Ok _ _ _ _ HlegC), (returned_bind_Ok _ _ _ _ HnewC).
  clear HlegC HnewC.
  set (d2 := <["COUPON_EXPENSE_6M" := Series.loc_set0 maskC cC]> d1).
  assert (Hd2 : dom d2 = dom df).
  { unfold d2. rewrite dom_insert_lookup_L by by eexists. done. }
  (* the two conversions *)
  rewrite (returned_ext _ _ _ (convert_data_types_loops d2)).
  assert (Hkey : returned
            (cs <- Frame.getitems scorer.key ;;
             Frame.setitems scorer.key (map Series.astype_object cs))%st d2
          = returned (for_each constants.KEY_COLUMNS
              (convert_body (fun c => Ok (Series.astype_object c)))) d2).
  { rewrite (returned_ext _ _ _ (legacy_key_block d2)).
    apply (convert_block_loop _ constants.KEY_COLUMNS); [apply NoDup_KEY_COLUMNS|].
    intros col Hcol. rewrite Hd2. apply Hdom. unfold LEGACY_COLUMNS.
    rewrite !elem_of_app. auto. }
  rewrite !returned_bind, Hkey.
  destruct (returned (for_each constants.KEY_COLUMNS
              (convert_body (fun c => Ok (Series.astype_object c)))) d2)
    as [d3|e] eqn:Hrun; [|done].
  unfold rbind.
  apply (convert_block_loop _ constants.INT_COLUMNS); [apply NoDup_INT_COLUMNS|].
  intros col Hcol.
  assert (Hd3 : dom d3 = dom df).
  { apply returned_Ok_run in Hrun.
    by eapply (triple_convert_loop_dom _ _ (dom df)). }
  rewrite Hd3. apply Hdom. unfold LEGACY_COLUMNS. rewrite !elem_of_app. auto.
Qed.

Lemma C10_legacy_refactored_equal_witness :
  (forall name, name ∈ LEGACY_COLUMNS -> is_Some (example_full !! name)) /\
  returned scorer.data_upload_clean example_full
  = returned DataLoader.preprocess_steps example_full.
Proof.
  assert (H : forall name, name ∈ LEGACY_COLUMNS -> is_Some (example_full !! name)).
  { intros name Hin. unfold LEGACY_COLUMNS in Hin.
    rewrite !elem_of_app in Hin. destruct Hin as [Hin|[Hin|Hin]];
      names; vm_compute; eexists; reflexivity. }
  split; [exact H|]. exact (C10_legacy_refactored_equal example_full H).
Defined.

(** ** The scorer *)

Section predict.
Import constants.

Lemma elem_of_missing_features (data : DataFrame) (name : string) :
  name ∈ Predictor.missing_features data <->
  name ∈ FEATURE_COLUMNS /\ data !! name = None.
Proof.
  unfold Predictor.missing_features.
  rewrite elem_of_difference, elem_of_list_to_set, not_elem_of_dom. done.
Qed.

Lemma missing_features_empty (data : DataFrame) :
  Predictor.missing_features data = ∅ <->
  forall name, name ∈ FEATURE_COLUMNS -> is_Some (data !! name).
Proof.
  split.
  - intros Hempty name Hin. destruct (data !! name) as [c|] eqn:Hc; [by eexists|].
    exfalso. apply (not_elem_of_empty (C := gset string) name).
    rewrite <- Hempty. by apply elem_of_missing_features.
  - intros Hall. apply set_eq. intros name.
    rewrite elem_of_missing_features. split; [|by intros ?%not_elem_of_empty].
    intros [Hin Hnone]. destruct (Hall name Hin) as [c Hc]. congruence.
Qed.

Lemma lookup_zip_to_map (cols : list string) (cs : list column) (data : DataFrame)
    (name : string) :
  Forall2 (fun col c => data !! col = Some c) cols cs -> name ∈ cols ->
  (list_to_map (zip cols cs) : DataFrame) !! name = data !! name.
Proof.
  induction 1 as [|col c cols cs Hc _ IH]; [by intros ?%elem_of_nil|].
  simpl. destruct (decide (col = name)) as [->|Hne].
  - intros _. by rewrite lookup_insert_eq.
  - intros [?|Hin]%elem_of_cons; [congruence|].
    rewrite lookup_insert_ne by done. by apply IH.
Qed.

Lemma dom_zip_to_map (cols : list string) (cs : list column) (data : DataFrame) :
  Forall2 (fun col c => data !! col = Some c) cols cs ->
  dom (list_to_map (zip cols cs) : DataFrame) = list_to_set cols.
Proof.
  induction 1 as [|col c cols cs Hc _ IH]; simpl.
  - apply dom_empty_L.
  - by rewrite dom_insert_L, IH.
Qed.

(** With no feature missing, [data[FEATURE_COLUMNS]] is the frame of the
    fourteen feature columns of [data]. *)
Lemma features_present (data : DataFrame) :
  Predictor.missing_features data = ∅ ->
  exists X, Predictor.features data = Ok X /\
            dom X = list_to_set FEATURE_COLUMNS /\
            forall name, name ∈ FEATURE_COLUMNS -> X !! name = data !! name.
Proof.
  intros Hempty. pose proof (proj1 (missing_features_empty data) Hempty) as Hall.
  destruct (present_columns FEATURE_COLUMNS data) as [cs Hcs].
  { intros col Hin. by apply elem_of_dom, Hall. }
  exists (list_to_map (zip FEATURE_COLUMNS cs)). split; [|split].
  - unfold Predictor.features. by rewrite (getitems_run _ _ _ Hcs).
  - by eapply dom_zip_to_map.
  - intros name Hin. by apply lookup_zip_to_map.
Qed.

Lemma mapM_decile_label (ps : list Q) :
  exists ds, mapM decile_label ps = Ok ds /\ length ds = length ps.
Proof.
  induction ps as [|p ps (ds & Hds & Hlen)]; [by exists nil|].
  rewrite mapM_cons, decile_label_bin, Hds. eexists. split; [done|].
  simpl. by rewrite Hlen.
Qed.

Lemma lookup_col_error (data : DataFrame) (col : string) (e : exn) :
  Predictor.lookup_col data col = Err e -> e = KeyError col.
Proof. unfold Predictor.lookup_col. destruct (data !! col); by intros [= <-]. Qed.

Lemma DataFrame_of_error (cols : list (string * column)) (e : exn) :
  pandas.DataFrame_of cols = Err e ->
  e = ValueError "All arrays must be of the same length".
Proof.
  unfold pandas.DataFrame_of. destruct cols as [|[name c] rest]; [done|].
  destruct (forallb _ rest); by intros [= <-].
Qed.

(** The statements after the checks raise neither of the two errors of the
    checks. *)
Lemma build_output_error (data : DataFrame) (proba : string + list (Q * Q)) (e : exn) :
  Predictor.build_output data proba = Err e ->
  e <> ModelNotLoaded /\ forall ms, e <> MissingFeatures ms.
Proof.
  unfold Predictor.build_output.
  destruct proba as [msg|rows]; [by intros [= <-]|].
  destruct (Predictor.lookup_col data "CUSTOMER_ID") as [c1|e1] eqn:H1;
    cbn [rbind]; [|intros [= <-]; by apply lookup_col_error in H1 as ->].
  destruct (Predictor.lookup_col data "PREVIOUS_PURCHASE") as [c2|e2] eqn:H2;
    cbn [rbind]; [|intros [= <-]; by apply lookup_col_error in H2 as ->].
  destruct (pandas.DataFrame_of _) as [out|e3] eqn:H3;
    cbn [rbind]; [|intros [= <-]; by apply DataFrame_of_error in H3 as ->].
  destruct (mapM_decile_label (map snd rows)) as (ds & -> & _). done.
Qed.

End predict.

(** C5: [predict] fails with the model-not-loaded error if and only if no
    classifier is loaded.  Otherwise it fails with the missing-feature error
    if and only if one of the 14 feature columns is absent from the table,
    and the error names exactly the absent feature columns.  In both cases
    the classifier has not been called.  Otherwise neither error is raised,
    and the classifier is called once, on the frame of the feature
    columns. *)
Theorem C5_predict_checks (self : PurchasePredictor) (data : DataFrame) :
  let r := (Predictor.predict self data).1 in
  let calls := (Predictor.predict self data).2 in
  let missing := Predictor.missing_features data in
  length constants.FEATURE_COLUMNS = 14%nat /\
  (forall name, name ∈ missing <->
                name ∈ constants.FEATURE_COLUMNS /\ data !! name = None) /\
  (r = Err ModelNotLoaded <-> model self = None) /\
  (forall ms, r = Err (MissingFeatures ms) <->
              model self <> None /\ missing <> ∅ /\ ms = missing) /\
  (r = Err ModelNotLoaded \/ (exists ms, r = Err (MissingFeatures ms)) ->
   calls = []) /\
  (model self <> None -> missing = ∅ ->
   exists X, Predictor.features data = Ok X /\ calls = [X]).
Proof.
  cbv zeta. split; [done|]. split; [apply elem_of_missing_features|].
  unfold Predictor.predict.
  destruct (model self) as [clf|]; cbv zeta.
  - destruct (decide (Predictor.missing_features data = ∅)) as [Hempty|Hmiss].
    + destruct (features_present data Hempty) as (X & -> & _). cbn [fst snd].
      destruct (Predictor.build_output data (predict_proba clf X)) as [out|e] eqn:Hout.
      * split; [by split|]. split; [|split; [|by exists X]].
        -- intros ms. split; [done|]. intros (_ & ? & _). done.
        -- intros [?|[ms ?]]; done.
      * destruct (build_output_error _ _ _ Hout) as [He1 He2].
        split; [|split; [|split; [|by exists X]]].
        -- split; [|done]. intros [= ->]. congruence.
        -- intros ms. split; [|intros (_ & ? & _); done].
           intros [= ->]. exfalso. by eapply He2.
        -- intros [[= ->]|[ms [= ->]]]; [done|]. exfalso. by eapply He2.
    + cbn [fst snd]. split; [by split|]. split; [|split; [done|done]].
      intros ms. split; [|by intros (_ & _ & ->)].
      intros [= <-]. by repeat split.
  - cbn [fst snd]. split; [by split|]. split; [|split; [done|done]].
    intros ms. split; [done|]. intros (? & _). done.
Qed.




Lemma coin_classifier_rows (X : DataFrame) (c : column) :
  X !! "SALES_6M" = Some c ->
  predict_proba coin_classifier X
  = inr (replicate (Series.len c) (1 # 2, 1 # 2)%Q).
Proof. intros Hc. simpl. by rewrite Hc. Qed.

Lemma sales_is_feature : "SALES_6M" ∈ constants.FEATURE_COLUMNS.
Proof. by apply (bool_decide_unpack _). Qed.


(** * Further properties of the code *)

(** ** The bins of [pd.cut] *)

Section bins.

(** [pd.cut] refuses bin edges that decrease somewhere; edges that pass this
    check are in ascending order. *)
Lemma any_decreasing_false (bins : list Q) (j k : nat) (u v : Q) :
  pd.any_decreasing bins = false -> (j <= k)%nat ->
  bins !! j = Some u -> bins !! k = Some v -> (u <= v)%Q.
Proof.
  revert j k u. induction bins as [|b bins IH]; intros j k u Hinc Hjk Hj Hk.
  - done.
  - assert (Htail : pd.any_decreasing bins = false).
    { destruct bins as [|b' bins]; [done|]. simpl in Hinc.
      by apply orb_false_iff in Hinc as [_ ?]. }
    destruct j as [|j].
    + simpl in Hj. simplify_eq. destruct k as [|k].
      * simpl in Hk. simplify_eq. apply Qle_refl.
      * simpl in Hk. destruct bins as [|b' bins]; [done|].
        apply Qle_trans with b'.
        -- simpl in Hinc. apply orb_false_iff in Hinc as [Hbb' _].
           by destruct (Qlt_le_dec b' u).
        -- apply (IH O k b' Htail); [lia|done|done].
    + destruct k as [|k]; [lia|]. simpl in Hj, Hk.
      apply (IH j k u Htail); [lia|done|done].
Qed.

(** Every edge before the position that [searchsorted] returns is below the
    value, and the edge at that position is not. *)
Lemma searchsorted_left_before (a : list Q) (x : Q) (j : nat) (b : Q) :
  (j < pd.searchsorted_left a x)%nat -> a !! j = Some b -> (b < x)%Q.
Proof.
  revert j. induction a as [|b0 a IH]; intros j; simpl; [lia|].
  destruct (Qlt_le_dec b0 x) as [Hlt|Hle]; [|lia].
  destruct j as [|j]; simpl.
  - intros _ [= <-]. done.
  - intros Hj. apply IH. lia.
Qed.

Lemma searchsorted_left_at (a : list Q) (x : Q) (b : Q) :
  a !! pd.searchsorted_left a x = Some b -> (x <= b)%Q.
Proof.
  induction a as [|b0 a IH]; simpl; [done|].
  destruct (Qlt_le_dec b0 x) as [Hlt|Hle]; simpl; [done|].
  by intros [= <-].
Qed.

(** Bin [i] of ascending edges is the interval that is open at edge [i] and
    closed at edge [i + 1]. *)
Lemma bin_of_interval (bins : list Q) (x lo hi : Q) (i : nat) :
  pd.any_decreasing bins = false ->
  bins !! i = Some lo -> bins !! S i = Some hi ->
  pd.bin_of bins x = Some i <-> (lo < x)%Q /\ (x <= hi)%Q.
Proof.
  intros Hinc Hlo Hhi. unfold pd.bin_of.
  pose proof (searchsorted_left_le_length bins x) as Hlen.
  pose proof (lookup_lt_Some _ _ _ Hhi) as Hi.
  split.
  - destruct (Nat.eqb_spec (pd.searchsorted_left bins x) (length bins)); [done|].
    destruct (Nat.eqb_spec (pd.searchsorted_left bins x) 0); [done|].
    simpl. intros [= Hids].
    assert (Hpos : pd.searchsorted_left bins x = S i) by lia.
    split.
    + apply (searchsorted_left_before bins x i); [lia|done].
    + apply (searchsorted_left_at bins). by rewrite Hpos.
  - intros [Hlox Hxhi].
    assert (Hpos : pd.searchsorted_left bins x = S i).
    { destruct (lt_eq_lt_dec (pd.searchsorted_left bins x) (S i)) as [[Hlt|Heq]|Hgt].
      - exfalso.
        destruct (lookup_lt_is_Some_2 bins (pd.searchsorted_left bins x)) as [b Hb];
          [lia|].
        pose proof (searchsorted_left_at bins x b Hb) as Hxb.
        assert (Hble : (b <= lo)%Q).
        { apply (any_decreasing_false bins (pd.searchsorted_left bins x) i);
            [done|lia|done|done]. }
        apply (Qlt_not_le lo x Hlox). by apply Qle_trans with b.
      - done.
      - exfalso.
        pose proof (searchsorted_left_before bins x (S i) hi Hgt Hhi) as Hhix.
        by apply (Qlt_not_le hi x). }
    rewrite Hpos.
    destruct (Nat.eqb_spec (S i) (length bins)); [lia|].
    simpl. f_equal. lia.
Qed.

End bins.

(** X1: the decile of a probability is read off the bin edges: for two
    neighbouring edges [lo] (at position [i]) and [hi] (at position [i + 1])
    of DECILE_BINS, a probability gets the decile [10 - i] exactly when it
    lies in the interval that is open at [lo] and closed at [hi]. *)
Theorem decile_of_interval (p lo hi : Q) (i : nat) :
  constants.DECILE_BINS !! i = Some lo ->
  constants.DECILE_BINS !! S i = Some hi ->
  decile_int p = Ok (10 - Z.of_nat i) <-> (lo < p)%Q /\ (p <= hi)%Q.
Proof.
  intros Hlo Hhi.
  rewrite <- (bin_of_interval constants.DECILE_BINS p lo hi i); [|done..].
  rewrite decile_int_bin. split.
  - intros (j & Hj & Heq). assert (j = i) as -> by lia. done.
  - intros Hb. by exists i.
Qed.

Lemma decile_of_interval_witness :
  decile_int (3 # 10) = Ok (10 - Z.of_nat 4) <->
  (26712146 # 100000000 < 3 # 10)%Q /\ (3 # 10 <= 42682036 # 100000000)%Q.
Proof.
  apply (decile_of_interval (3 # 10) (26712146 # 100000000)
           (42682036 # 100000000) 4); reflexivity.
Defined.

(** X2: a decile is assigned exactly to the probabilities in the interval
    that is open at 0 and closed at 1, and an assigned decile is one of
    1..10.  The probability 0 gets none, so the conversion to integers that
    follows in the pipeline raises for it. *)
Theorem decile_assigned_iff (p : Q) :
  (is_ok (decile_int p) <-> (0 < p)%Q /\ (p <= 1)%Q) /\
  (forall d, decile_int p = Ok d -> 1 <= d <= 10) /\
  raises (decile_int 0).
Proof.
  split; [|split].
  - split.
    + intros [d (i & Hb & _)%decile_int_bin].
      destruct (Qlt_le_dec 0 p) as [H0|H0];
        [|by rewrite bin_of_outside in Hb by by left].
      destruct (Qlt_le_dec 1 p) as [H1|H1];
        [by rewrite bin_of_outside in Hb by by right|done].
    + intros [H0 H1]. by apply decile_int_total.
  - apply decile_int_range.
  - eexists. reflexivity.
Qed.

(** X3: the decile never rises with the probability: of two probabilities
    that both get a decile, the one that is not smaller gets a decile that is
    not larger. *)
Theorem decile_falls_with_probability (p1 p2 : Q) (d1 d2 : Z) :
  (p1 <= p2)%Q -> decile_int p1 = Ok d1 -> decile_int p2 = Ok d2 -> d2 <= d1.
Proof.
  intros Hle (i & Hi & ->)%decile_int_bin (j & Hj & ->)%decile_int_bin.
  pose proof (bin_of_mono _ _ _ _ _ Hle Hi Hj). lia.
Qed.

Lemma decile_falls_with_probability_witness : 7 <= 8.
Proof.
  apply (decile_falls_with_probability (22 # 100) (26 # 100));
    [by vm_compute|reflexivity|reflexivity].
Defined.

(** ** The cleaning pass, column by column *)

Section columnwise.

Lemma convert_loop_total (f : column -> result column) (cols : list string)
    (df : DataFrame) :
  NoDup cols ->
  (forall name c, name ∈ cols -> df !! name = Some c -> is_ok (f c)) ->
  exists df', for_each cols (convert_body f) df = (Ok tt, df').
Proof.
  intros Hnd. revert df. induction Hnd as [|col cols Hnotin Hnd IH]; intros df Hok.
  - by eexists.
  - simpl. unfold bind at 1. rewrite convert_body_run.
    destruct (df !! col) as [c|] eqn:Hc.
    + destruct (Hok col c) as [c' Hc']; [by left|done|]. rewrite Hc'.
      apply IH. intros name c0 Hin. rewrite lookup_insert_ne by (intros ->; done).
      apply Hok. by right.
    + apply IH. intros name c0 Hin. apply Hok. by right.
Qed.

(** After the loop, every column is the conversion of the column it was
    when its name is in the list, and the column it was otherwise. *)
Lemma convert_loop_lookup (f : column -> result column) (cols : list string)
    (df df' : DataFrame) (name : string) (c : column) :
  NoDup cols ->
  for_each cols (convert_body f) df = (Ok tt, df') ->
  df !! name = Some c ->
  exists c', df' !! name = Some c' /\
             if bool_decide (name ∈ cols) then f c = Ok c' else c' = c.
Proof.
  intros Hnd Hrun Hc.
  assert (Hin : is_Some (df' !! name)).
  { apply elem_of_dom.
    rewrite (triple_convert_loop_dom f cols (dom df) df tt df' eq_refl Hrun).
    apply elem_of_dom. by eexists. }
  destruct Hin as [c' Hc']. exists c'. split; [done|].
  pose proof (triple_convert_loop f cols
    (fun n c0 => df !! n = Some c0)
    (fun n c0' => forall c0, df !! n = Some c0 ->
                  if bool_decide (n ∈ cols) then f c0 = Ok c0' else c0' = c0)
    Hnd) as Htriple.
  assert (Hpost : forall c0, df !! name = Some c0 ->
            if bool_decide (name ∈ cols) then f c0 = Ok c' else c' = c0);
    [|by apply Hpost].
  refine (Htriple _ _ df tt df' _ Hrun name c' Hc').
  - intros n c1 Hn Hc1 c0 Hc0. rewrite bool_decide_eq_false_2 by done. congruence.
  - intros n c1 c1' Hn Hc1 Hf c0 Hc0. rewrite bool_decide_eq_true_2 by done.
    congruence.
  - by intros n c1 Hc1.
Qed.

Lemma triple_fix_negative_column_dom_values (d d' : DataFrame) :
  DataLoader.fix_negative_values d = (Ok tt, d') -> dom d' = dom d.
Proof.
  unfold DataLoader.fix_negative_values. intros Hrun.
  refine (triple_seq (fun x => dom x = dom d) (fun x => dom x = dom d)
            (fun x => dom x = dom d) _ _ _ _ d tt d' eq_refl Hrun).
  - apply triple_fix_negative_column_dom.
  - intros _. apply triple_fix_negative_column_dom.
Qed.

(** The steps of a cleaning pass that returns. *)
Lemma cleaned_steps (df df' : DataFrame) :
  cleaned df = Ok df' <->
  exists d2 d3,
    DataLoader.fix_negative_values (fill_frame df) = (Ok tt, d2) /\
    for_each constants.KEY_COLUMNS
      (convert_body (fun c => Ok (Series.astype_object c))) d2 = (Ok tt, d3) /\
    for_each constants.INT_COLUMNS (convert_body Series.astype_int) d3
      = (Ok tt, df').
Proof.
  unfold cleaned, returned, DataLoader.preprocess_steps, bind at 1.
  rewrite fill_missing_values_run. unfold bind at 1.
  destruct (DataLoader.fix_negative_values (fill_frame df)) as [[[]|e] d2].
  - rewrite convert_data_types_loops. unfold bind.
    destruct (for_each constants.KEY_COLUMNS _ d2) as [[[]|e] d3] eqn:Hkey.
    + destruct (for_each constants.INT_COLUMNS _ d3) as [[[]|e] d4] eqn:Hint.
      * split; [intros [= <-]; by exists d2, d3|].
        intros (? & ? & [= <-] & Hkey' & Hint'). rewrite Hkey in Hkey'.
        injection Hkey' as <-. rewrite Hint in Hint'. by injection Hint' as <-.
      * split; [done|]. intros (? & ? & [= <-] & Hkey' & Hint').
        rewrite Hkey in Hkey'. injection Hkey' as <-. by rewrite Hint in Hint'.
    + split; [done|]. intros (? & ? & [= <-] & Hkey' & _).
      by rewrite Hkey in Hkey'.
  - split; [done|]. intros (? & ? & [=] & _).
Qed.

(** The column [name] after the clamp and the conversion of the key columns. *)
Lemma cleaned_stage3 (df d2 d3 : DataFrame) (name : string) (c : column) :
  DataLoader.fix_negative_values (fill_frame df) = (Ok tt, d2) ->
  for_each constants.KEY_COLUMNS
    (convert_body (fun c => Ok (Series.astype_object c))) d2 = (Ok tt, d3) ->
  df !! name = Some c ->
  exists c2,
    (if bool_decide (name ∈ MONETARY_COLUMNS)
     then exists mask, Series.lt0 (Series.fillna (fill_value name) c) = Ok mask /\
                       c2 = Series.loc_set0 mask (Series.fillna (fill_value name) c)
     else c2 = Series.fillna (fill_value name) c) /\
    d3 !! name =
    Some (if bool_decide (name ∈ constants.KEY_COLUMNS)
          then Series.astype_object c2 else c2).
Proof.
  intros Hfix Hkey Hc.
  assert (Hc1 : fill_frame df !! name = Some (Series.fillna (fill_value name) c)).
  { by rewrite lookup_fill_frame, Hc. }
  destruct (fix_negative_values_lookup _ _ _ Hfix) as [Hother Hmon].
  assert (exists c2,
    (if bool_decide (name ∈ MONETARY_COLUMNS)
     then exists mask, Series.lt0 (Series.fillna (fill_value name) c) = Ok mask /\
                       c2 = Series.loc_set0 mask (Series.fillna (fill_value name) c)
     else c2 = Series.fillna (fill_value name) c) /\
    d2 !! name = Some c2) as (c2 & Hc2 & Hd2).
  { destruct (decide (name ∈ MONETARY_COLUMNS)) as [Hin|Hnotin].
    - rewrite bool_decide_eq_true_2 by done.
      destruct (Hmon eq_refl name _ Hin Hc1) as (mask & Hlt & Hd2).
      eexists. split; [|exact Hd2]. by exists mask.
    - rewrite bool_decide_eq_false_2 by done. eexists. split; [done|].
      by rewrite Hother. }
  exists c2. split; [done|].
  destruct (convert_loop_lookup _ _ _ _ name c2 NoDup_KEY_COLUMNS Hkey Hd2)
    as (c3 & Hd3 & Hc3).
  rewrite Hd3. destruct (bool_decide (name ∈ constants.KEY_COLUMNS)); congruence.
Qed.

Lemma clean_col_stage3 (name : string) (c c2 : column) :
  (if bool_decide (name ∈ MONETARY_COLUMNS)
   then exists mask, Series.lt0 (Series.fillna (fill_value name) c) = Ok mask /\
                     c2 = Series.loc_set0 mask (Series.fillna (fill_value name) c)
   else c2 = Series.fillna (fill_value name) c) ->
  clean_col name c =
  let c3 := if bool_decide (name ∈ constants.KEY_COLUMNS)
            then Series.astype_object c2 else c2 in
  if bool_decide (name ∈ constants.INT_COLUMNS) then Series.astype_int c3 else Ok c3.
Proof.
  unfold clean_col. cbv zeta.
  destruct (bool_decide (name ∈ MONETARY_COLUMNS)).
  - intros (mask & -> & ->). done.
  - intros ->. done.
Qed.

(** A cleaning pass that returns has cleaned every column on its own. *)
Lemma cleaned_lookup (df df' : DataFrame) (name : string) (c : column) :
  cleaned df = Ok df' -> df !! name = Some c ->
  exists c', clean_col name c = Ok c' /\ df' !! name = Some c'.
Proof.
  intros (d2 & d3 & Hfix & Hkey & Hint)%cleaned_steps Hc.
  destruct (cleaned_stage3 _ _ _ _ _ Hfix Hkey Hc) as (c2 & Hc2 & Hd3).
  destruct (convert_loop_lookup _ _ _ _ name _ NoDup_INT_COLUMNS Hint Hd3)
    as (c' & Hd' & Hc').
  exists c'. split; [|done]. rewrite (clean_col_stage3 _ _ _ Hc2). cbv zeta.
  destruct (bool_decide (name ∈ constants.INT_COLUMNS)); congruence.
Qed.

(** A cleaning pass returns when every column can be cleaned on its own. *)
Lemma cleaned_total (df : DataFrame) :
  (forall name c, df !! name = Some c -> is_ok (clean_col name c)) ->
  is_ok (cleaned df).
Proof.
  intros Hok.
  assert (Hlt : forall name c, name ∈ MONETARY_COLUMNS -> df !! name = Some c ->
            is_ok (Series.lt0 (Series.fillna (fill_value name) c))).
  { intros name c Hin Hc. destruct (Hok name c Hc) as [c' Hc']. revert Hc'.
    unfold clean_col. cbv zeta. rewrite bool_decide_eq_true_2 by done.
    destruct (Series.lt0 _) as [mask|e]; [by eexists|done]. }
  (* the clamp *)
  assert (exists d2, DataLoader.fix_negative_values (fill_frame df) = (Ok tt, d2))
    as [d2 Hfix].
  { unfold DataLoader.fix_negative_values, bind.
    rewrite fix_negative_column_run, lookup_fill_frame.
    assert (Hstep : forall d : DataFrame,
              d !! "COUPON_EXPENSE_6M" = fill_frame df !! "COUPON_EXPENSE_6M" ->
              exists d2, DataLoader.fix_negative_column "COUPON_EXPENSE_6M" d
                         = (Ok tt, d2)).
    { intros d Hd. rewrite fix_negative_column_run, Hd, lookup_fill_frame.
      destruct (df !! "COUPON_EXPENSE_6M") as [c|] eqn:Hc; simpl; [|by eexists].
      destruct (Hlt "COUPON_EXPENSE_6M" c) as [mask ->];
        [by apply (bool_decide_unpack _)|done|]. by eexists. }
    destruct (df !! "SALES_6M") as [c|] eqn:Hc; simpl; [|by apply Hstep].
    destruct (Hlt "SALES_6M" c) as [mask ->];
      [by apply (bool_decide_unpack _)|done|].
    apply Hstep. by rewrite lookup_insert_ne. }
  (* the key columns *)
  destruct (convert_loop_total (fun c => Ok (Series.astype_object c))
              constants.KEY_COLUMNS d2 NoDup_KEY_COLUMNS) as [d3 Hkey].
  { intros. by eexists. }
  (* the integer columns *)
  destruct (convert_loop_total Series.astype_int constants.INT_COLUMNS d3
              NoDup_INT_COLUMNS) as [d4 Hint].
  { intros name c3 Hin Hd3.
    assert (Hdom : is_Some (df !! name)).
    { apply elem_of_dom. rewrite <- dom_fill_frame.
      rewrite <- (triple_fix_negative_column_dom_values _ _ Hfix).
      rewrite <- (triple_convert_loop_dom _ _ (dom d2) d2 tt d3 eq_refl Hkey).
      apply elem_of_dom. by eexists. }
    destruct Hdom as [c Hc].
    destruct (cleaned_stage3 _ _ _ _ _ Hfix Hkey Hc) as (c2 & Hc2 & Hd3').
    destruct (Hok name c Hc) as [c' Hc'].
    rewrite (clean_col_stage3 _ _ _ Hc2) in Hc'. cbv zeta in Hc'.
    rewrite bool_decide_eq_true_2 in Hc' by done.
    rewrite Hd3 in Hd3'. injection Hd3' as ->. by eexists. }
  exists d4. apply cleaned_steps. by exists d2, d3.
Qed.

End columnwise.

Section column_steps.

Lemma fillna_len (v : Z) (c : column) : Series.len (Series.fillna v c) = Series.len c.
Proof. destruct c; simpl; by rewrite ?length_map. Qed.

Lemma astype_object_len (c : column) :
  Series.len (Series.astype_object c) = Series.len c.
Proof. destruct c; simpl; by rewrite ?length_map. Qed.

Lemma astype_int_len (c c' : column) :
  Series.astype_int c = Ok c' -> Series.len c' = Series.len c.
Proof.
  destruct c as [l|l|l]; simpl.
  - by intros [= <-].
  - destruct (mapM Series.float_to_int l) as [zs|] eqn:Hm; simpl; [|done].
    intros [= <-]. by apply mapM_Ok_length in Hm.
  - destruct (mapM Series.obj_to_int l) as [zs|] eqn:Hm; simpl; [|done].
    intros [= <-]. by apply mapM_Ok_length in Hm.
Qed.

Lemma clean_col_len (name : string) (c c' : column) :
  clean_col name c = Ok c' -> Series.len c' = Series.len c.
Proof.
  unfold clean_col. cbv zeta.
  set (c1 := Series.fillna (fill_value name) c).
  assert (Hc1 : Series.len c1 = Series.len c) by apply fillna_len.
  assert (Hstep : forall c2, Series.len c2 = Series.len c ->
    (if bool_decide (name ∈ constants.INT_COLUMNS)
     then Series.astype_int
            (if bool_decide (name ∈ constants.KEY_COLUMNS)
             then Series.astype_object c2 else c2)
     else Ok (if bool_decide (name ∈ constants.KEY_COLUMNS)
              then Series.astype_object c2 else c2)) = Ok c' ->
    Series.len c' = Series.len c).
  { intros c2 Hc2.
    assert (Hc3 : Series.len (if bool_decide (name ∈ constants.KEY_COLUMNS)
                              then Series.astype_object c2 else c2) = Series.len c).
    { destruct (bool_decide _); [by rewrite astype_object_len|done]. }
    destruct (bool_decide (name ∈ constants.INT_COLUMNS)).
    - intros H%astype_int_len. congruence.
    - intros [= <-]. done. }
  destruct (bool_decide (name ∈ MONETARY_COLUMNS)).
  - destruct (Series.lt0 c1) as [mask|e] eqn:Hlt; [|done]. cbn [rbind].
    apply Hstep. by rewrite loc_set0_len.
  - cbn [rbind]. by apply Hstep.
Qed.



End column_steps.

(** X4: a cleaning pass that returns neither adds nor drops a column, and
    every column keeps its number of rows. *)
Theorem cleaning_keeps_columns_and_rows (df df' : DataFrame) :
  cleaned df = Ok df' ->
  dom df' = dom df /\
  forall name c c', df !! name = Some c -> df' !! name = Some c' ->
                    Series.len c' = Series.len c.
Proof.
  intros Hclean. split; [by apply cleaned_dom|].
  intros name c c' Hc Hc'.
  destruct (cleaned_lookup _ _ _ _ Hclean Hc) as (c0 & Hcol & Hc0).
  rewrite Hc' in Hc0. injection Hc0 as <-. by eapply clean_col_len.
Qed.

Lemma cleaning_keeps_columns_and_rows_witness :
  exists df', cleaned example_full = Ok df' /\ dom df' = dom example_full.
Proof.
  destruct (bool_decide_unpack (is_ok (cleaned example_full)))
    as [df' Hclean]; [vm_compute; exact I|].
  exists df'. split; [done|].
  exact (proj1 (cleaning_keeps_columns_and_rows example_full df' Hclean)).
Defined.

(** X5: a cleaning pass works column by column.  It returns a table [df']
    exactly when every column of the input can be cleaned on its own, by its
    name alone (fill, then clamp if monetary, then object if key, then int if
    integer), and [df'] holds under every name the column cleaned so; no
    column of the result depends on another column of the input. *)
Theorem cleaning_is_columnwise (df df' : DataFrame) :
  cleaned df = Ok df' <->
  forall name,
    match df !! name with
    | Some c => exists c', clean_col name c = Ok c' /\ df' !! name = Some c'
    | None => df' !! name = None
    end.
Proof.
  split.
  - intros Hclean name. destruct (df !! name) as [c|] eqn:Hc.
    + by eapply cleaned_lookup.
    + apply not_elem_of_dom. rewrite (cleaned_dom _ _ Hclean).
      by apply not_elem_of_dom.
  - intros Hcols.
    destruct (cleaned_total df) as [df'' Hclean].
    { intros name c Hc. specialize (Hcols name). rewrite Hc in Hcols.
      destruct Hcols as (c' & Hc' & _). by eexists. }
    rewrite Hclean. f_equal. apply map_eq. intros name.
    specialize (Hcols name). destruct (df !! name) as [c|] eqn:Hc.
    + destruct Hcols as (c' & Hc' & ->).
      destruct (cleaned_lookup _ _ _ _ Hclean Hc) as (c'' & Hc'' & ->). congruence.
    + rewrite Hcols. apply not_elem_of_dom. rewrite (cleaned_dom _ _ Hclean).
      by apply not_elem_of_dom.
Qed.




(** X8: where the two implementations part.  On a table without SALES_6M the
    legacy statements raise AttributeError at the clamp, after the fill has
    been written into the table; the block of [_fix_negative_values] for that
    column does nothing and raises nothing. *)
Theorem legacy_raises_without_sales (df : DataFrame) :
  df !! "SALES_6M" = None ->
  scorer.data_upload_clean df = (Err (AttributeError "SALES_6M"), fill_frame df) /\
  DataLoader.fix_negative_column "SALES_6M" (fill_frame df) = (Ok tt, fill_frame df).
Proof.
  intros Hnone.
  assert (Hfilled : fill_frame df !! "SALES_6M" = None)
    by by rewrite lookup_fill_frame, Hnone.
  split.
  - unfold scorer.data_upload_clean, bind at 1.
    change scorer.fill_loop with DataLoader.fill_missing_values.
    rewrite fill_missing_values_run. unfold bind at 1.
    by rewrite clamp_attr_run, Hfilled.
  - by rewrite fix_negative_column_run, Hfilled.
Qed.

Lemma legacy_raises_without_sales_witness :
  scorer.data_upload_clean {[ "FREQUENCY_6M" := FloatCol [None; Some (2 # 1)]%Q ]}
  = (Err (AttributeError "SALES_6M"),
     fill_frame {[ "FREQUENCY_6M" := FloatCol [None; Some (2 # 1)]%Q ]}).
Proof.
  apply (legacy_raises_without_sales
           {[ "FREQUENCY_6M" := FloatCol [None; Some (2 # 1)]%Q ]}).
  reflexivity.
Defined.

(** ** What [predict] returns *)

Section predict_shape.
Import constants.

Lemma mapM_decile_label_eq (ps : list Q) :
  mapM decile_label ps
  = Ok (map (fun p => i ← pd.bin_of DECILE_BINS p; DECILE_LABELS !! i) ps).
Proof. apply (mapM_total_fun (fun p => i ← pd.bin_of DECILE_BINS p; DECILE_LABELS !! i)). Qed.

Lemma DataFrame_of_three_Ok (n1 n2 n3 : string) (c1 c2 c3 : column) (out : DataFrame) :
  pandas.DataFrame_of [(n1, c1); (n2, c2); (n3, c3)] = Ok out ->
  Series.len c2 = Series.len c1 /\ Series.len c3 = Series.len c1 /\
  out = <[n1 := c1]> (<[n2 := c2]> (<[n3 := c3]> ∅)).
Proof.
  unfold pandas.DataFrame_of. cbn [forallb snd].
  destruct (Nat.eqb_spec (Series.len c2) (Series.len c1)); [|done].
  destruct (Nat.eqb_spec (Series.len c3) (Series.len c1)); [|done].
  cbn [andb]. by intros [= <-].
Qed.

End predict_shape.

(** The table that [predict] returns is built from four columns: the two
    columns that are passed through, the class-1 probabilities, and the
    labels of their bins. *)
Lemma predict_Ok_inv (self : PurchasePredictor) (data out : DataFrame) :
  (Predictor.predict self data).1 = Ok out ->
  exists clf X rows cid pp,
    model self = Some clf /\
    Predictor.features data = Ok X /\
    (Predictor.predict self data).2 = [X] /\
    predict_proba clf X = inr rows /\
    data !! "CUSTOMER_ID" = Some cid /\
    data !! "PREVIOUS_PURCHASE" = Some pp /\
    Series.len pp = Series.len cid /\
    length rows = Series.len cid /\
    out = <["DECILE" := ObjCol (map (fun pr => decile_cell pr.2) rows)]>
            (<["CUSTOMER_ID" := cid]>
               (<["PREVIOUS_PURCHASE" := pp]>
                  (<["P" := FloatCol (map (fun pr => Some pr.2) rows)]> ∅))).
Proof.
  unfold Predictor.predict.
  destruct (model self) as [clf|]; [|done]. cbv zeta.
  destruct (decide (Predictor.missing_features data = ∅)) as [Hempty|]; [|done].
  destruct (Predictor.features data) as [X|e] eqn:HX; [|done]. cbn [fst snd].
  unfold Predictor.build_output, Predictor.lookup_col.
  destruct (predict_proba clf X) as [msg|rows] eqn:Hrows; [done|].
  destruct (data !! "CUSTOMER_ID") as [cid|] eqn:Hcid; [|done].
  destruct (data !! "PREVIOUS_PURCHASE") as [pp|] eqn:Hpp; [|done].
  cbn [rbind].
  destruct (pandas.DataFrame_of _) as [output|e] eqn:Hout; [|done]. cbn [rbind].
  apply DataFrame_of_three_Ok in Hout as (Hlen2 & Hlen3 & ->).
  rewrite mapM_decile_label_eq. cbn [rbind]. intros [= <-].
  unfold Series.len at 1 in Hlen3. rewrite !length_map in Hlen3.
  exists clf, X, rows, cid, pp. rewrite !map_map.
  by repeat (split; [done|]).
Qed.

(** X9: whenever [predict] returns a table, a classifier was loaded, it was
    called once, on the frame of the feature columns, and it answered with as
    many rows as the input has; the table has exactly the columns
    CUSTOMER_ID, PREVIOUS_PURCHASE, P and DECILE; the first two are the
    columns of the input, P holds the class-1 probabilities in the order of
    the answer, and DECILE holds in every row the label of the bin of the
    probability of that row, or a missing value when the probability falls
    in no bin. *)
Theorem predict_returns_shape (self : PurchasePredictor) (data out : DataFrame) :
  (Predictor.predict self data).1 = Ok out ->
  exists clf X rows cid pp,
    model self = Some clf /\
    Predictor.features data = Ok X /\
    (Predictor.predict self data).2 = [X] /\
    predict_proba clf X = inr rows /\
    data !! "CUSTOMER_ID" = Some cid /\
    data !! "PREVIOUS_PURCHASE" = Some pp /\
    Series.len cid = length rows /\
    Series.len pp = length rows /\
    dom out = {[ "CUSTOMER_ID"; "PREVIOUS_PURCHASE"; "P"; "DECILE" ]} /\
    out !! "CUSTOMER_ID" = Some cid /\
    out !! "PREVIOUS_PURCHASE" = Some pp /\
    out !! "P" = Some (FloatCol (map (fun pr => Some pr.2) rows)) /\
    out !! "DECILE" = Some (ObjCol (map (fun pr => decile_cell pr.2) rows)).
Proof.
  intros (clf & X & rows & cid & pp & Hmodel & HX & Hcalls & Hrows & Hcid &
          Hpp & Hlen2 & Hlen3 & ->)%predict_Ok_inv.
  exists clf, X, rows, cid, pp.
  split; [done|]. split; [done|]. split; [done|]. split; [done|].
  split; [done|]. split; [done|]. split; [done|]. split; [congruence|].
  split; [|split; [|split; [|split]]].
  - rewrite !dom_insert_L, dom_empty_L. set_solver.
  - rewrite lookup_insert_ne by done. by rewrite lookup_insert_eq.
  - rewrite !lookup_insert_ne by done. by rewrite lookup_insert_eq.
  - rewrite !lookup_insert_ne by done. by rewrite lookup_insert_eq.
  - by rewrite lookup_insert_eq.
Qed.

Lemma predict_returns_shape_witness :
  exists out,
    (Predictor.predict {| model := Some coin_classifier |} example_cleaned).1 = Ok out /\
    dom out = {[ "CUSTOMER_ID"; "PREVIOUS_PURCHASE"; "P"; "DECILE" ]}.
Proof.
  destruct (bool_decide_unpack
              (is_ok (Predictor.predict {| model := Some coin_classifier |}
                        example_cleaned).1))
    as [out Hout]; [vm_compute; exact I|].
  exists out. split; [done|].
  destruct (predict_returns_shape _ _ _ Hout)
    as (? & ? & ? & ? & ? & _ & _ & _ & _ & _ & _ & _ & _ & Hdom & _).
  exact Hdom.
Defined.

(** X10: the check of the features does not cover the two columns that are
    passed through.  With a classifier loaded and all features present, a
    table without CUSTOMER_ID makes [predict] raise KeyError for that
    column, and a table with it but without PREVIOUS_PURCHASE raise KeyError
    for that one; in both cases the classifier has already been called. *)
Theorem predict_missing_key_column (self : PurchasePredictor) (clf : Classifier)
    (data X : DataFrame) (rows : list (Q * Q)) :
  model self = Some clf ->
  Predictor.missing_features data = ∅ ->
  Predictor.features data = Ok X ->
  predict_proba clf X = inr rows ->
  (data !! "CUSTOMER_ID" = None ->
   Predictor.predict self data = (Err (KeyError "CUSTOMER_ID"), [X])) /\
  (is_Some (data !! "CUSTOMER_ID") -> data !! "PREVIOUS_PURCHASE" = None ->
   Predictor.predict self data = (Err (KeyError "PREVIOUS_PURCHASE"), [X])).
Proof.
  intros Hmodel Hempty HX Hrows.
  unfold Predictor.predict. rewrite Hmodel. cbv zeta.
  rewrite decide_True by done. rewrite HX, Hrows.
  unfold Predictor.build_output, Predictor.lookup_col. split.
  - intros ->. done.
  - intros [cid ->] ->. done.
Qed.

Lemma predict_missing_key_column_witness :
  exists X, Predictor.predict {| model := Some coin_classifier |} example_no_id
            = (Err (KeyError "CUSTOMER_ID"), [X]).
Proof.
  assert (Hempty : Predictor.missing_features example_no_id = ∅).
  { apply missing_features_empty. intros name Hin.
    unfold constants.FEATURE_COLUMNS in Hin.
    names; vm_compute; eexists; reflexivity. }
  destruct (features_present example_no_id Hempty) as (X & HX & _ & HlookX).
  exists X.
  assert (Hrows : predict_proba coin_classifier X
                  = inr (replicate 2 (1 # 2, 1 # 2)%Q)).
  { apply (coin_classifier_rows X (IntCol [100; 250])).
    rewrite (HlookX "SALES_6M" sales_is_feature). vm_compute. reflexivity. }
  apply (proj1 (predict_missing_key_column {| model := Some coin_classifier |}
                  coin_classifier example_no_id X _ eq_refl Hempty HX Hrows)).
  reflexivity.
Defined.

(** ** Formatting the output: [_prepare_output] *)

Section prepare_output.
Variable to_datetime : column -> result column.
Variable float_of_str : string -> option (option Q).

Lemma convert_at_run (f : column -> result column) (col : string) (df : DataFrame) :
  convert_at f col df =
  match df !! col with
  | None => (Err (KeyError col), df)
  | Some c =>
      match f c with
      | Ok c' => (Ok tt, <[col := c']> df)
      | Err e => (Err e, df)
      end
  end.
Proof.
  unfold convert_at, bind, Frame.getitem, lift, Frame.setitem.
  destruct (df !! col) as [c|]; [|done]. by destruct (f c).
Qed.

Lemma prepare_output_steps_eq :
  prepare_output_steps to_datetime float_of_str =
  (convert_at Series.astype_int "CUSTOMER_ID" ;;;
   convert_at to_datetime "PREVIOUS_PURCHASE" ;;;
   convert_at Series.astype_int "DECILE" ;;;
   convert_at (astype_float float_of_str) "P")%st.
Proof. reflexivity. Qed.

(** An assignment that returns has changed its own column only. *)
Lemma convert_at_Ok (f : column -> result column) (col : string) (df df' : DataFrame) :
  convert_at f col df = (Ok tt, df') ->
  exists c c', df !! col = Some c /\ f c = Ok c' /\ df' = <[col := c']> df.
Proof.
  rewrite convert_at_run. destruct (df !! col) as [c|]; [|done].
  destruct (f c) as [c'|e] eqn:Hf; [|done]. intros [= <-]. by exists c, c'.
Qed.

Lemma mapM_Err_elem {A B} (f : A -> result B) (l : list A) (a : A) :
  a ∈ l -> raises (f a) -> raises (mapM f l).
Proof.
  intros Hin Hbad. induction l as [|a0 l IH]; [by apply elem_of_nil in Hin|].
  rewrite mapM_cons. destruct (f a0) as [b|e] eqn:Hfa0; [|by eexists].
  apply elem_of_cons in Hin as [->|Hin].
  - destruct Hbad as [e He]. congruence.
  - destruct (IH Hin) as [e ->]. by eexists.
Qed.

(** A column with a missing value cannot be converted to int. *)
Lemma astype_int_missing (c : column) :
  ~ Series.no_missing c -> raises (Series.astype_int c).
Proof.
  destruct c as [l|l|l]; simpl; [done| |]; intros Hmiss.
  - apply not_Forall_Exists in Hmiss; [|apply _].
    apply Exists_exists in Hmiss as (o & Hin & Ho).
    destruct (mapM_Err_elem Series.float_to_int l o Hin) as [e ->]; [|by eexists].
    destruct o as [q|]; [exfalso; apply Ho; by eexists|]. by eexists.
  - apply not_Forall_Exists in Hmiss; [|apply _].
    apply Exists_exists in Hmiss as (o & Hin & Ho).
    destruct (mapM_Err_elem Series.obj_to_int l o Hin) as [e ->]; [|by eexists].
    destruct o as [x|]; [exfalso; apply Ho; by eexists|]. by eexists.
Qed.

(** X11: the formatting step raises on every table whose DECILE column holds
    a missing value, whatever the other columns hold.  Such a table is what
    [predict] returns when a probability is 0 or lies outside the bins. *)
Theorem prepare_output_raises_on_missing_decile (predictions : DataFrame)
    (c : column) :
  predictions !! "DECILE" = Some c -> ~ Series.no_missing c ->
  raises (returned (prepare_output_steps to_datetime float_of_str) predictions).
Proof.
  intros Hc Hmiss. rewrite prepare_output_steps_eq. unfold returned, bind.
  destruct (convert_at Series.astype_int "CUSTOMER_ID" predictions)
    as [[[]|e] d1] eqn:H1; [|by eexists].
  apply convert_at_Ok in H1 as (c1 & c1' & _ & _ & ->).
  destruct (convert_at to_datetime "PREVIOUS_PURCHASE" _)
    as [[[]|e] d2] eqn:H2; [|by eexists].
  apply convert_at_Ok in H2 as (c2 & c2' & _ & _ & ->).
  rewrite convert_at_run. rewrite !lookup_insert_ne by done. rewrite Hc.
  destruct (astype_int_missing c Hmiss) as [e ->]. by eexists.
Qed.

End prepare_output.

Lemma prepare_output_raises_on_missing_decile_witness :
  raises (returned (prepare_output_steps (fun c => Ok c) (fun _ => None))
            example_predictions_zero).
Proof.
  apply (prepare_output_raises_on_missing_decile (fun c => Ok c) (fun _ => None)
           example_predictions_zero (ObjCol [None; Some (OStr "4")])).
  - reflexivity.
  - simpl. intros H. apply Forall_cons in H as [[x Hx] _]. discriminate.
Defined.

(** The integer that [astype(int)] reads off a cell of the DECILE column is
    the decile of the probability. *)
Lemma decile_cell_int (p : Q) (d : Z) :
  Series.obj_to_int (decile_cell p) = Ok d <-> decile_int p = Ok d.
Proof.
  rewrite decile_int_bin. unfold decile_cell.
  destruct (pd.bin_of constants.DECILE_BINS p) as [i|] eqn:Hb; simpl.
  - pose proof (bin_of_lt _ _ _ Hb) as Hlt.
    change (length constants.DECILE_BINS) with 11%nat in Hlt.
    do 10 (destruct i as [|i];
           [simpl; split; [intros [= <-]; by eexists
                          |intros (j & [= <-] & ->); done]|]).
    lia.
  - split; [done|]. by intros (j & ? & _).
Qed.

(** A probability that gets a decile lies in the interval that is open at 0
    and closed at 1. *)
Lemma decile_int_interval (p : Q) (d : Z) :
  decile_int p = Ok d -> (0 < p)%Q /\ (p <= 1)%Q.
Proof.
  intros (i & Hb & _)%decile_int_bin.
  destruct (Qlt_le_dec 0 p) as [H0|H0];
    [|by rewrite bin_of_outside in Hb by by left].
  destruct (Qlt_le_dec 1 p) as [H1|H1];
    [by rewrite bin_of_outside in Hb by by right|done].
Qed.

Section formatted.
Variable to_datetime : column -> result column.
Variable float_of_str : string -> option (option Q).

(** X12: from the classifier to the formatted table.  When [predict]
    returns a table and the formatting step returns on it, the formatted
    DECILE column is an int column that holds in every row the decile of the
    probability of that row, a number in 1..10; every probability then lies
    in the interval that is open at 0 and closed at 1; the column P is
    unchanged and no column is added or dropped. *)
Theorem formatted_deciles (self : PurchasePredictor) (data out out' : DataFrame) :
  (Predictor.predict self data).1 = Ok out ->
  returned (prepare_output_steps to_datetime float_of_str) out = Ok out' ->
  exists (rows : list (Q * Q)) (ds : list Z),
    out !! "P" = Some (FloatCol (map (fun pr => Some pr.2) rows)) /\
    out' !! "P" = out !! "P" /\
    out' !! "DECILE" = Some (IntCol ds) /\
    Forall2 (fun pr d => decile_int pr.2 = Ok d) rows ds /\
    Forall (fun pr => (0 < pr.2)%Q /\ (pr.2 <= 1)%Q) rows /\
    Forall (fun d => 1 <= d <= 10) ds /\
    dom out' = dom out.
Proof.
  intros (clf & X & rows & cid & pp & _ & _ & _ & _ & _ & _ & _ & _ &
          Hout)%predict_Ok_inv.
  assert (HD : out !! "DECILE"
               = Some (ObjCol (map (fun pr => decile_cell pr.2) rows)))
    by by rewrite Hout, lookup_insert_eq.
  assert (HP : out !! "P" = Some (FloatCol (map (fun pr => Some pr.2) rows))).
  { rewrite Hout, !lookup_insert_ne by done. by rewrite lookup_insert_eq. }
  assert (Hcid : out !! "CUSTOMER_ID" = Some cid).
  { rewrite Hout, lookup_insert_ne by done. by rewrite lookup_insert_eq. }
  assert (Hpp : out !! "PREVIOUS_PURCHASE" = Some pp).
  { rewrite Hout, !lookup_insert_ne by done. by rewrite lookup_insert_eq. }
  clear Hout.
  rewrite prepare_output_steps_eq. unfold returned, bind.
  destruct (convert_at Series.astype_int "CUSTOMER_ID" out)
    as [[[]|e] d1] eqn:H1; [|done].
  apply convert_at_Ok in H1 as (c1 & c1' & Hc1 & _ & ->).
  destruct (convert_at to_datetime "PREVIOUS_PURCHASE" _)
    as [[[]|e] d2] eqn:H2; [|done].
  apply convert_at_Ok in H2 as (c2 & c2' & Hc2 & _ & ->).
  destruct (convert_at Series.astype_int "DECILE" _)
    as [[[]|e] d3] eqn:H3; [|done].
  apply convert_at_Ok in H3 as (c3 & c3' & Hc3 & Hint & ->).
  destruct (convert_at (astype_float float_of_str) "P" _)
    as [[[]|e] d4] eqn:H4; [|done].
  apply convert_at_Ok in H4 as (c4 & c4' & Hc4 & Hfloat & ->).
  intros [= <-].
  rewrite !lookup_insert_ne in Hc3 by done. rewrite HD in Hc3.
  injection Hc3 as <-.
  rewrite !lookup_insert_ne in Hc4 by done. rewrite HP in Hc4.
  injection Hc4 as <-. simpl in Hfloat. injection Hfloat as <-.
  simpl in Hint.
  destruct (mapM Series.obj_to_int _) as [ds|e] eqn:Hm; [|done].
  simpl in Hint. injection Hint as <-.
  apply mapM_Ok, Forall2_fmap_l in Hm.
  assert (Hdec : Forall2 (fun pr d => decile_int pr.2 = Ok d) rows ds).
  { eapply Forall2_impl; [exact Hm|]. intros pr d Hd. by apply decile_cell_int. }
  exists rows, ds.
  split; [done|]. split; [by rewrite lookup_insert_eq|].
  split; [rewrite lookup_insert_ne by done; by rewrite lookup_insert_eq|].
  split; [done|]. split; [|split].
  - eapply Forall2_Forall_l; [exact Hdec|]. apply Forall_true.
    intros d pr Hd. by eapply decile_int_interval.
  - eapply Forall2_Forall_r; [exact Hdec|]. apply Forall_true.
    intros pr d Hd. by eapply decile_int_range.
  - apply elem_of_dom_2 in Hcid. apply elem_of_dom_2 in HP.
    apply elem_of_dom_2 in HD. apply elem_of_dom_2 in Hpp.
    rewrite !dom_insert_L. apply set_eq. intros x.
    rewrite !elem_of_union, !elem_of_singleton.
    split; [intros [->|[->|[->|[->|?]]]]; done|by auto 10].
Qed.

(** [_prepare_output] copies the frame of its argument into a new object,
    runs the four assignments on the copy and returns the copy. *)
Lemma prepare_output_run (l : loc) (h : store) :
  _prepare_output to_datetime float_of_str l h =
  match h !! l with
  | None => (Err NoSuchObject, h)
  | Some df =>
      let l' := fresh (dom h) in
      match prepare_output_steps to_datetime float_of_str df with
      | (Ok _, df') => (Ok l', <[l' := df']> h)
      | (Err e, df') => (Err e, <[l' := df']> h)
      end
  end.
Proof.
  unfold _prepare_output, bind at 1, Store.copy.
  destruct (h !! l) as [df|] eqn:Hl; [|done]. cbv zeta.
  unfold bind, Store.at_, ret. rewrite lookup_insert_eq.
  destruct (prepare_output_steps to_datetime float_of_str df) as [[[]|e] df'];
    by rewrite insert_insert_eq.
Qed.

(** X13: [_prepare_output] never changes the table it is given, nor any other
    object that exists when it is called, whether it returns or raises; what
    it returns is a new object that holds the formatted copy. *)
Theorem prepare_output_input_unchanged (h : store) (l : loc) :
  let r := (_prepare_output to_datetime float_of_str l h).1 in
  let h' := (_prepare_output to_datetime float_of_str l h).2 in
  (forall l0, is_Some (h !! l0) -> h' !! l0 = h !! l0) /\
  (forall l', r = Ok l' ->
     h !! l' = None /\
     exists df df', h !! l = Some df /\
       returned (prepare_output_steps to_datetime float_of_str) df = Ok df' /\
       h' !! l' = Some df').
Proof.
  cbv zeta. rewrite prepare_output_run.
  assert (Hfresh : h !! fresh (dom h) = None) by apply not_elem_of_dom, is_fresh.
  destruct (h !! l) as [df|] eqn:Hl; [|by split].
  cbv zeta. unfold returned.
  destruct (prepare_output_steps to_datetime float_of_str df)
    as [[[]|e] df'] eqn:Hsteps; cbn [fst snd].
  - split.
    + intros l0 [d Hd]. rewrite lookup_insert_ne; [done|congruence].
    + intros l' Heq. injection Heq as <-. split; [done|]. exists df, df'.
      by rewrite Hsteps, lookup_insert_eq.
  - split; [|done].
    intros l0 [d Hd]. rewrite lookup_insert_ne; [done|congruence].
Qed.

End formatted.

Lemma formatted_deciles_witness :
  exists out out' ds,
    (Predictor.predict {| model := Some coin_classifier |} example_cleaned).1 = Ok out /\
    returned (prepare_output_steps (fun c => Ok c) (fun _ => None)) out = Ok out' /\
    out' !! "DECILE" = Some (IntCol ds) /\ Forall (fun d => 1 <= d <= 10) ds.
Proof.
  destruct (bool_decide_unpack
              (is_ok (rbind (Predictor.predict {| model := Some coin_classifier |}
                               example_cleaned).1
                        (returned (prepare_output_steps (fun c => Ok c)
                                     (fun _ => None))))))
    as [out' Hout']; [vm_compute; exact I|].
  destruct (Predictor.predict {| model := Some coin_classifier |} example_cleaned).1
    as [out|e] eqn:Hout; [|done].
  cbn [rbind] in Hout'.
  destruct (formatted_deciles (fun c => Ok c) (fun _ => None) _ _ _ _ Hout Hout')
    as (rows & ds & _ & _ & HD & _ & _ & Hds & _).
  exists out, out', ds.
  split; [reflexivity|]. split; [exact Hout'|]. split; [exact HD|exact Hds].
Defined.
